(** * The Turnstile token gate (server/middleware/turnstile.ts)

    A shallow embedding of the request middleware that checks the
    [x-turnstile-token] header against a Redis cache and, on a miss,
    against Cloudflare's siteverify endpoint.

    The middleware talks to three things it does not own: the Redis
    server, the siteverify endpoint and the hosting framework (h3).  They
    are modelled as follows.
    - The asynchronous functions are written in a state-and-exception
      monad over a [World]: the module-level [redisClient] variable, the
      keyspace of the Redis server, and the log of every external call.
    - What the outside does on each call (does [connect] resolve, reject
      or stay pending, likewise [get] and [setEx], what does siteverify
      answer, what time is it on the Redis server) is a [Scenario], one
      per request; every external call is made at most once per request.
    - An [await] is sequencing, and an [await] on a promise that never
      settles leaves the request [Pending]: there is no timeout anywhere
      in the module.  Interleavings of concurrent requests are not
      modelled. *)

From stdpp Require Import base option gmap strings list.
From Stdlib Require Import ZArith Lia.

#[local] Set Warnings "-register-all".

Open Scope Z_scope.
Open Scope string_scope.

(** ** JavaScript values *)

(** What [response.json()] can resolve to, plus [undefined], which a
    property read yields for an absent property.  The payload of a number
    is kept as its lexeme: the code never inspects it. *)
Inductive JsValue : Type :=
| JUndefined
| JNull
| JBool (b : bool)
| JNum (lexeme : string)
| JStr (s : string)
| JArr (items : list JsValue)
| JObj (props : gmap string JsValue).

(** Exceptions that can travel through the code. [H3Error] is the value
    built by [createError({statusCode, message, data})]. *)
Inductive Exn : Type :=
| RedisError (operation : string)
| FetchError
| SyntaxError
| TypeError
| H3Error (statusCode : Z) (message : string) (data : list (string * string)).

(** How an asynchronous function ends: it returns, it throws, or it is
    left waiting on a promise that does not settle. *)
Inductive Outcome (A : Type) : Type :=
| Returned (a : A)
| Threw (e : Exn)
| Pending.
Arguments Returned {A} a.
Arguments Threw {A} e.
Arguments Pending {A}.

(** [v.success]: a property read.  It throws on [null] and [undefined],
    is [undefined] on the other primitives and on arrays (neither
    [Array.prototype] nor the wrapper prototypes define [success]), and
    reads the own property of an object. *)
Definition get_success (v : JsValue) : Outcome JsValue :=
  match v with
  | JUndefined | JNull => Threw TypeError
  | JObj props => Returned (default JUndefined (props !! "success"))
  | _ => Returned JUndefined
  end.

(** [v === true] *)
Definition strict_eq_true (v : JsValue) : bool :=
  match v with
  | JBool true => true
  | _ => false
  end.

(** Truthiness of a [string | undefined]: [undefined] and the empty
    string are falsy. *)
Definition truthy (o : option string) : bool :=
  match o with
  | Some s => negb (String.eqb s "")
  | None => false
  end.

(** [a || b] on [string | undefined] *)
Definition js_or (a b : option string) : option string :=
  if truthy a then a else b.

(** ** The outside world *)

(** The request ("event"): its headers, with lower-case names as node
    delivers them, and the address [getRequestIP] reports. *)
Record H3Event : Type := {
  headers : gmap string string;
  requestIP : option string;
}.

Definition getHeader (event : H3Event) (name : string) : option string :=
  headers event !! name.

Definition getRequestIP (event : H3Event) : option string :=
  requestIP event.

(** The call made to siteverify: [URLSearchParams] is the list of pairs
    in the order they were appended. *)
Record FetchRequest : Type := {
  url : string;
  method : string;
  content_type : string;
  body : list (string * string);
}.

(** What [response.json()] does with the response body. *)
Inductive BodyJson : Type :=
| NotJson
| Json (v : JsValue).

(** [fetch] rejects on a transport failure and resolves on every HTTP
    status. *)
Inductive FetchOutcome : Type :=
| FetchRejected
| FetchResponse (status : Z) (json : BodyJson).

(** What becomes of a promise of the Redis client.  The client is built
    with its default options, so while the server cannot be reached
    [connect] keeps retrying and commands wait in the client's queue:
    the promise stays pending.  A promise is rejected when the client
    gives up with an error or the server answers with one. *)
Inductive Reply : Type :=
| Resolves
| Rejects
| Pends.

Definition resolves (r : Reply) : bool :=
  match r with Resolves => true | _ => false end.

Definition pends (r : Reply) : bool :=
  match r with Pends => true | _ => false end.

(** Everything the outside decides during one request.  [createClient]
    is synchronous: it returns or throws.  Times are milliseconds on the
    clock of the Redis server. *)
Record Scenario : Type := {
  createClient_ok : bool;
  connect_reply : Reply;
  get_reply : Reply;
  get_time : Z;
  setEx_reply : Reply;
  setEx_time : Z;
  siteverify : FetchRequest -> FetchOutcome;
}.

Inductive RedisClient : Type :=
| Client (client_url : option string).

Inductive Event : Type :=
| EvCreateClient (client_url : option string)
| EvConnect
| EvGet (key : string)
| EvSetEx (key : string) (seconds : Z) (value : string)
| EvFetch (req : FetchRequest) (answer : FetchOutcome)
| EvConsole (level : string) (text : string).

(** [redisClient] is the module-level variable; [redis_store] is the
    keyspace of the server, each key with its value and the instant it
    expires; [trace] lists the external calls, newest first. *)
Record World : Type := {
  redisClient : option RedisClient;
  redis_store : gmap string (string * Z);
  trace : list Event;
}.

(** Environment variables, read once when the module is loaded. *)
Record Config : Type := {
  TURNSTILE_SECRET_KEY : option string;
  REDIS_URL : option string;
}.

Definition TOKEN_CACHE_DURATION : Z := 10 * 60 * 1000.

(** ** The monad of the asynchronous functions *)

Definition M (A : Type) : Type := World -> Outcome A * World.

Definition ret {A} (a : A) : M A := fun w => (Returned a, w).

Definition throw {A} (e : Exn) : M A := fun w => (Threw e, w).

(** An [await] that is never resumed. *)
Definition pend {A} : M A := fun w => (Pending, w).

Definition bind {A B} (m : M A) (k : A -> M B) : M B :=
  fun w =>
    match m w with
    | (Returned a, w') => k a w'
    | (Threw e, w') => (Threw e, w')
    | (Pending, w') => (Pending, w')
    end.

(** [try { m } catch (error) { h error }]: a pending [await] inside the
    block reaches neither the end of the block nor the handler. *)
Definition try_catch {A} (m : M A) (h : Exn -> M A) : M A :=
  fun w =>
    match m w with
    | (Returned a, w') => (Returned a, w')
    | (Threw e, w') => h e w'
    | (Pending, w') => (Pending, w')
    end.

(** Awaits a promise of the client that resolves to [value]. *)
Definition await_reply {A} (r : Reply) (operation : string) (value : M A) : M A :=
  match r with
  | Resolves => value
  | Rejects => throw (RedisError operation)
  | Pends => pend
  end.

Declare Scope js_scope.
Delimit Scope js_scope with js.
Notation "x <- m ;; k" := (bind m (fun x => k))
  (at level 100, m at next level, right associativity) : js_scope.
Notation "m ;;; k" := (bind m (fun _ => k))
  (at level 100, right associativity) : js_scope.
Open Scope js_scope.

Definition emit (e : Event) : M unit :=
  fun w => (Returned tt, {| redisClient := redisClient w;
                            redis_store := redis_store w;
                            trace := e :: trace w |}).

Definition set_redisClient (c : option RedisClient) : M unit :=
  fun w => (Returned tt, {| redisClient := c;
                            redis_store := redis_store w;
                            trace := trace w |}).

Definition set_store (s : gmap string (string * Z)) : M unit :=
  fun w => (Returned tt, {| redisClient := redisClient w;
                            redis_store := s;
                            trace := trace w |}).

Definition get_world : M World := fun w => (Returned w, w).

Definition console (level text : string) : M unit := emit (EvConsole level text).

(** ** The Redis client library *)

(** GET: the value of a key that is set and has not expired.  The
    server counts a key as expired once the clock is past its expiry
    instant, so the key is still served at that instant itself. *)
Definition redis_lookup (store : gmap string (string * Z)) (key : string) (now : Z)
  : option string :=
  match store !! key with
  | Some (v, expires) => if Z.leb now expires then Some v else None
  | None => None
  end.

(** SETEX: the key holds the value for [seconds] seconds from now. *)
Definition redis_write (store : gmap string (string * Z)) (key : string)
    (seconds : Z) (value : string) (now : Z) : gmap string (string * Z) :=
  <[key := (value, now + seconds * 1000)]> store.

Definition createClient (sc : Scenario) (client_url : option string) : M RedisClient :=
  emit (EvCreateClient client_url) ;;;
  if createClient_ok sc then ret (Client client_url)
  else throw (RedisError "createClient").

Definition client_connect (sc : Scenario) (c : RedisClient) : M unit :=
  emit EvConnect ;;;
  await_reply (connect_reply sc) "connect" (ret tt).

Definition client_get (sc : Scenario) (c : RedisClient) (key : string)
  : M (option string) :=
  emit (EvGet key) ;;;
  await_reply (get_reply sc) "get"
    (w <- get_world ;; ret (redis_lookup (redis_store w) key (get_time sc))).

(** A command that is rejected or left pending has not run on the
    server. *)
Definition client_setEx (sc : Scenario) (c : RedisClient) (key : string)
    (seconds : Z) (value : string) : M unit :=
  emit (EvSetEx key seconds value) ;;;
  await_reply (setEx_reply sc) "setEx"
    (w <- get_world ;;
     set_store (redis_write (redis_store w) key seconds value (setEx_time sc))).

(** ** fetch *)

Definition fetch (sc : Scenario) (req : FetchRequest) : M (Z * BodyJson) :=
  let answer := siteverify sc req in
  emit (EvFetch req answer) ;;;
  match answer with
  | FetchRejected => throw FetchError
  | FetchResponse status json => ret (status, json)
  end.

Definition response_json (response : Z * BodyJson) : M JsValue :=
  match snd response with
  | NotJson => throw SyntaxError
  | Json v => ret v
  end.

Definition lift_outcome {A} (o : Outcome A) : M A := fun w => (o, w).

(** ** The module *)

Section Module.

Variable cfg : Config.

(** [initRedis] *)
Definition initRedis (sc : Scenario) : M (option RedisClient) :=
  w <- get_world ;;
  match redisClient w with
  | Some c => ret (Some c)
  | None =>
    try_catch
      (c <- createClient sc (REDIS_URL cfg) ;;
       set_redisClient (Some c) ;;;
       client_connect sc c ;;;
       console "log" "Connected to Redis for Turnstile caching" ;;;
       w' <- get_world ;;
       ret (redisClient w'))
      (fun error =>
         console "error" "Failed to connect to Redis:" ;;;
         ret None)
  end.

Definition siteverify_url : string :=
  "https://challenges.cloudflare.com/turnstile/v0/siteverify".

(** [if (remoteip) params.append('remoteip', remoteip)] *)
Definition siteverify_params_ip (remoteip : option string)
  : list (string * string) :=
  if truthy remoteip then [("remoteip", default "" remoteip)] else [].

(** The parameters appended to [params], in order. *)
Definition siteverify_params (secret token : string) (remoteip : option string)
  : list (string * string) :=
  ([("secret", secret); ("response", token)]
   ++ siteverify_params_ip remoteip)%list.

Definition siteverify_request (secret token : string) (remoteip : option string)
  : FetchRequest :=
  {| url := siteverify_url;
     method := "POST";
     content_type := "application/x-www-form-urlencoded";
     body := siteverify_params secret token remoteip |}.

(** [validateTurnstileToken] *)
Definition validateTurnstileToken (sc : Scenario) (token : string)
    (remoteip : option string) : M bool :=
  if negb (truthy (TURNSTILE_SECRET_KEY cfg)) then
    console "warn" "TURNSTILE_SECRET_KEY not set, skipping validation" ;;;
    ret false
  else
    try_catch
      (response <- fetch sc (siteverify_request
                               (default "" (TURNSTILE_SECRET_KEY cfg)) token remoteip) ;;
       result <- response_json response ;;
       success <- lift_outcome (get_success result) ;;
       ret (strict_eq_true success))
      (fun error =>
         console "error" "Turnstile validation error:" ;;;
         ret false).

Definition cache_key (token : string) : string := "turnstile:" ++ token.

(** [isTokenValid] *)
Definition isTokenValid (sc : Scenario) (token : string) : M bool :=
  w <- get_world ;;
  match redisClient w with
  | None => ret false
  | Some c =>
    try_catch
      (cached <- client_get sc c (cache_key token) ;;
       ret (bool_decide (cached = Some "valid")))
      (fun error =>
         console "error" "Redis token check error:" ;;;
         ret false)
  end.

(** [storeValidToken] *)
Definition storeValidToken (sc : Scenario) (token : string) : M unit :=
  w <- get_world ;;
  match redisClient w with
  | None => ret tt
  | Some c =>
    try_catch
      (client_setEx sc c (cache_key token) (TOKEN_CACHE_DURATION / 1000) "valid")
      (fun error =>
         console "error" "Redis token store error:" ;;;
         ret tt)
  end.

Definition missing_token_error : Exn :=
  H3Error 401 "Authentication required"
    [("error", "Authentication required");
     ("message", "X-Turnstile-Token header is required")].

Definition invalid_token_error : Exn :=
  H3Error 401 "Invalid token"
    [("error", "Invalid token");
     ("message", "Turnstile token validation failed")].

(** The client address handed to [validateTurnstileToken]. *)
Definition resolve_remoteip (event : H3Event) : option string :=
  js_or (js_or (getRequestIP event) (getHeader event "cf-connecting-ip"))
        (getHeader event "x-forwarded-for").

(** The exported event handler.  Returning lets the request through;
    throwing an [H3Error] answers it with that status. *)
Definition handler (sc : Scenario) (event : H3Event) : M unit :=
  if negb (truthy (TURNSTILE_SECRET_KEY cfg)) || negb (truthy (REDIS_URL cfg)) then
    ret tt
  else
    initRedis sc ;;;
    let token := getHeader event "x-turnstile-token" in
    if negb (truthy token) then
      throw missing_token_error
    else
      (* past the check the header is a non-empty string *)
      let token := default "" token in
      isValid <- isTokenValid sc token ;;
      if negb isValid then
        let remoteip := resolve_remoteip event in
        isValidFromCloudflare <- validateTurnstileToken sc token remoteip ;;
        if negb isValidFromCloudflare then
          throw invalid_token_error
        else
          storeValidToken sc token
      else
        ret tt.

End Module.

(** ** Observations on a trace *)

(** The calls made to the Verifier, newest first. *)
Definition fetch_calls (tr : list Event) : list FetchRequest :=
  omap (fun e => match e with EvFetch req _ => Some req | _ => None end) tr.

(** The keys read from the cache. *)
Definition cache_reads (tr : list Event) : list string :=
  omap (fun e => match e with EvGet key => Some key | _ => None end) tr.

(** The entries written (or attempted) to the cache. *)
Definition cache_writes (tr : list Event) : list (string * Z * string) :=
  omap (fun e => match e with
                 | EvSetEx key seconds value => Some (key, seconds, value)
                 | _ => None
                 end) tr.

(** The clients created (or attempted), by the URL they were given. *)
Definition createClient_calls (tr : list Event) : list (option string) :=
  omap (fun e => match e with EvCreateClient u => Some u | _ => None end) tr.

(** How many times [connect] was called. *)
Definition connect_count (tr : list Event) : nat :=
  length (omap (fun e => match e with EvConnect => Some tt | _ => None end) tr).

(** The token a Verifier call carries in its [response] field. *)
Definition verified_token (req : FetchRequest) : option string :=
  snd <$> head (filter (fun p => fst p = "response") (body req)).

(** A call to the Verifier as the module makes it: a form-encoded POST
    to the siteverify endpoint whose first two fields are the secret and a
    non-empty token. *)
Definition well_addressed (secret : string) (req : FetchRequest) : Prop :=
  url req = "https://challenges.cloudflare.com/turnstile/v0/siteverify"
  /\ method req = "POST"
  /\ content_type req = "application/x-www-form-urlencoded"
  /\ exists token rest,
       body req = ("secret", secret) :: ("response", token) :: rest
       /\ token <> "".

(** ** Readings of the environment *)

(** The Verifier's answer as [validateTurnstileToken] reads it: the body
    parses to an object whose [success] property is [true]. *)
Definition reports_success (answer : FetchOutcome) : bool :=
  match answer with
  | FetchResponse _ (Json (JObj props)) =>
      match props !! "success" with
      | Some (JBool true) => true
      | _ => false
      end
  | _ => false
  end.

(** [response.ok]: the status is in the range 200-299. *)
Definition is_2xx (status : Z) : bool :=
  Z.leb 200 status && Z.leb status 299.

(** What the interface description calls success: the answer is 2xx and
    its body is a JSON object whose [success] field is [true]. *)
Definition spec_reports_success (answer : FetchOutcome) : bool :=
  match answer with
  | FetchResponse status (Json (JObj props)) =>
      is_2xx status &&
      match props !! "success" with
      | Some (JBool true) => true
      | _ => false
      end
  | _ => false
  end.

(** The gate is switched on: both variables are set (and not empty). *)
Definition configured (cfg : Config) : Prop :=
  truthy (TURNSTILE_SECRET_KEY cfg) = true /\ truthy (REDIS_URL cfg) = true.

(** The client the request works with once [initRedis] has run. *)
Definition client_after_init (cfg : Config) (sc : Scenario) (w : World)
  : option RedisClient :=
  match redisClient w with
  | Some c => Some c
  | None => if createClient_ok sc then Some (Client (REDIS_URL cfg)) else None
  end.

(** The cache answers, and holds an unexpired ["valid"] for the token. *)
Definition cache_hit (cfg : Config) (sc : Scenario) (w : World) (token : string)
  : bool :=
  bool_decide (client_after_init cfg sc w <> None)
  && resolves (get_reply sc)
  && bool_decide (redis_lookup (redis_store w) (cache_key token) (get_time sc)
                  = Some "valid").

(** The request connects and that [connect] stays pending. *)
Definition connect_pends (sc : Scenario) (w : World) : bool :=
  match redisClient w with
  | Some _ => false
  | None => createClient_ok sc && pends (connect_reply sc)
  end.

(** The request reads the cache and that [get] stays pending. *)
Definition get_pends (cfg : Config) (sc : Scenario) (w : World) : bool :=
  match client_after_init cfg sc w with
  | Some _ => pends (get_reply sc)
  | None => false
  end.

(** A write to the cache by this request would stay pending. *)
Definition setEx_pends (cfg : Config) (sc : Scenario) (w : World) : bool :=
  match client_after_init cfg sc w with
  | Some _ => pends (setEx_reply sc)
  | None => false
  end.



(** The first non-empty value of a list of optional strings. *)
Fixpoint first_nonempty (candidates : list (option string)) : option string :=
  match candidates with
  | [] => None
  | c :: rest => if truthy c then c else first_nonempty rest
  end.

(** ** Summary of one request *)

(** [response.json()] or the property read throws on this answer. *)
Definition reading_throws (answer : FetchOutcome) : bool :=
  match answer with
  | FetchRejected => true
  | FetchResponse _ NotJson => true
  | FetchResponse _ (Json (JUndefined | JNull)) => true
  | FetchResponse _ (Json _) => false
  end.

Definition verify_events (sc : Scenario) (req : FetchRequest) : list Event :=
  ((if reading_throws (siteverify sc req)
    then [EvConsole "error" "Turnstile validation error:"] else [])
   ++ [EvFetch req (siteverify sc req)])%list.

(** The events each phase of a request adds to the trace (newest first) and
    the keyspace a store leaves behind, as functions of the scenario. *)
Definition init_events (cfg : Config) (sc : Scenario) (c : option RedisClient)
  : list Event :=
  match c with
  | Some _ => []
  | None =>
      if createClient_ok sc then
        match connect_reply sc with
        | Resolves =>
            [EvConsole "log" "Connected to Redis for Turnstile caching";
             EvConnect; EvCreateClient (REDIS_URL cfg)]
        | Rejects =>
            [EvConsole "error" "Failed to connect to Redis:";
             EvConnect; EvCreateClient (REDIS_URL cfg)]
        | Pends =>
            [EvConnect; EvCreateClient (REDIS_URL cfg)]
        end
      else
        [EvConsole "error" "Failed to connect to Redis:";
         EvCreateClient (REDIS_URL cfg)]
  end.

Definition read_events (sc : Scenario) (cl : option RedisClient) (token : string)
  : list Event :=
  match cl with
  | None => []
  | Some _ =>
      match get_reply sc with
      | Rejects =>
          [EvConsole "error" "Redis token check error:"; EvGet (cache_key token)]
      | _ => [EvGet (cache_key token)]
      end
  end.

Definition write_events (sc : Scenario) (cl : option RedisClient) (token : string)
  : list Event :=
  match cl with
  | None => []
  | Some _ =>
      match setEx_reply sc with
      | Rejects =>
          [EvConsole "error" "Redis token store error:";
           EvSetEx (cache_key token) 600 "valid"]
      | _ => [EvSetEx (cache_key token) 600 "valid"]
      end
  end.

Definition stored (sc : Scenario) (cl : option RedisClient)
    (st : gmap string (string * Z)) (token : string) : gmap string (string * Z) :=
  match cl with
  | None => st
  | Some _ =>
      if resolves (setEx_reply sc)
      then redis_write st (cache_key token) 600 "valid" (setEx_time sc)
      else st
  end.

(** A sequence of requests, each under its own scenario. *)
Fixpoint run (cfg : Config) (requests : list (Scenario * H3Event)) (w : World)
  : list (Outcome unit) * World :=
  match requests with
  | [] => ([], w)
  | (sc, event) :: rest =>
      let '(r, w') := handler cfg sc event w in
      let '(rs, w'') := run cfg rest w' in
      (r :: rs, w'')
  end.

(** The process starts with no client and an empty trace. *)
Definition initial_world (st : gmap string (string * Z)) : World :=
  {| redisClient := None; redis_store := st; trace := [] |}.

(** A successful Verifier call for the token behind [key] is among
    [older]. *)
Definition verified_in (key : string) (older : list Event) : Prop :=
  exists req answer token,
    EvFetch req answer ∈ older
    /\ verified_token req = Some token
    /\ key = cache_key token
    /\ reports_success answer = true.

(** Every cache write in the trace comes after a Verifier call for the
    same token that reported success. *)
Definition writes_follow_verification (tr : list Event) : Prop :=
  forall newer older key seconds value,
    tr = (newer ++ EvSetEx key seconds value :: older)%list ->
    verified_in key older.

(** The same, by recursion on the trace. *)
Fixpoint writes_justified (tr : list Event) : Prop :=
  match tr with
  | [] => True
  | EvSetEx key _ _ :: older => verified_in key older /\ writes_justified older
  | _ :: older => writes_justified older
  end.

(** ** Sample requests *)

Definition cfg_on : Config :=
  {| TURNSTILE_SECRET_KEY := Some "s3cr3t";
     REDIS_URL := Some "redis://cache:6379" |}.

Definition cfg_off : Config :=
  {| TURNSTILE_SECRET_KEY := None;
     REDIS_URL := Some "redis://cache:6379" |}.

Definition answer_ok : FetchOutcome :=
  FetchResponse 200 (Json (JObj {[ "success" := JBool true ]})).

Definition answer_no : FetchOutcome :=
  FetchResponse 200 (Json (JObj {[ "success" := JBool false ]})).

Definition answer_500 : FetchOutcome :=
  FetchResponse 500 (Json (JObj {[ "success" := JBool true ]})).

(** A scenario at instant [now] in which the cache as a whole works or
    rejects every operation, and the Verifier gives one answer. *)
Definition scenario (up : bool) (now : Z) (answer : FetchOutcome) : Scenario :=
  {| createClient_ok := true;
     connect_reply := if up then Resolves else Rejects;
     get_reply := if up then Resolves else Rejects;
     get_time := now;
     setEx_reply := if up then Resolves else Rejects;
     setEx_time := now;
     siteverify := fun _ => answer |}.

(** The same with a server that cannot be reached. *)
Definition scenario_hung (now : Z) (answer : FetchOutcome) : Scenario :=
  {| createClient_ok := true;
     connect_reply := Pends;
     get_reply := Pends;
     get_time := now;
     setEx_reply := Pends;
     setEx_time := now;
     siteverify := fun _ => answer |}.

(** Both variables present, the secret empty. *)
Definition cfg_blank : Config :=
  {| TURNSTILE_SECRET_KEY := Some "";
     REDIS_URL := Some "redis://cache:6379" |}.

Definition ev_token : H3Event :=
  {| headers := {[ "x-turnstile-token" := "tok";
                   "cf-connecting-ip" := "203.0.113.7";
                   "x-forwarded-for" := "198.51.100.9" ]};
     requestIP := Some "192.0.2.1" |}.

Definition ev_bare : H3Event :=
  {| headers := ∅; requestIP := None |}.

Definition ev_empty : H3Event :=
  {| headers := {[ "x-turnstile-token" := "" ]}; requestIP := None |}.

Definition world_cached : World :=
  {| redisClient := Some (Client (Some "redis://cache:6379"));
     redis_store := {[ "turnstile:tok" := ("valid", 600000) ]};
     trace := [] |}.

(** ** One step of each function *)

Section Steps.

Variable cfg : Config.
Variable sc : Scenario.

(** Unfolds the monad so that a run on an explicit world computes. *)
Ltac run_js :=
  unfold bind, try_catch, await_reply, ret, throw, pend, emit, console,
    get_world, set_redisClient, set_store, lift_outcome; simpl.

Lemma initRedis_run c st tr :
  initRedis cfg sc {| redisClient := c; redis_store := st; trace := tr |} =
  match c with
  | Some cl =>
      (Returned (Some cl), {| redisClient := c; redis_store := st; trace := tr |})
  | None =>
      (if createClient_ok sc then
         match connect_reply sc with
         | Resolves => Returned (Some (Client (REDIS_URL cfg)))
         | Rejects => Returned None
         | Pends => Pending
         end
       else Returned None,
       {| redisClient :=
            if createClient_ok sc then Some (Client (REDIS_URL cfg)) else None;
          redis_store := st;
          trace := (init_events cfg sc None ++ tr)%list |})
  end.
Proof.
  unfold initRedis, createClient, client_connect, init_events. run_js.
  destruct c as [cl|]; [reflexivity|].
  destruct (createClient_ok sc); simpl; [|reflexivity].
  destruct (connect_reply sc); reflexivity.
Qed.

Lemma isTokenValid_run token c st tr :
  isTokenValid sc token {| redisClient := c; redis_store := st; trace := tr |} =
  (match c with
   | None => Returned false
   | Some _ =>
       match get_reply sc with
       | Resolves =>
           Returned (bool_decide
                       (redis_lookup st (cache_key token) (get_time sc)
                        = Some "valid"))
       | Rejects => Returned false
       | Pends => Pending
       end
   end,
   {| redisClient := c; redis_store := st;
      trace := (read_events sc c token ++ tr)%list |}).
Proof.
  unfold isTokenValid, client_get, read_events. run_js.
  destruct c as [cl|]; [|reflexivity].
  destruct (get_reply sc); reflexivity.
Qed.

Lemma storeValidToken_run token c st tr :
  storeValidToken sc token {| redisClient := c; redis_store := st; trace := tr |} =
  (match c with
   | None => Returned tt
   | Some _ => if pends (setEx_reply sc) then Pending else Returned tt
   end,
   {| redisClient := c;
      redis_store := stored sc c st token;
      trace := (write_events sc c token ++ tr)%list |}).
Proof.
  unfold storeValidToken, client_setEx, write_events, stored. run_js.
  destruct c as [cl|]; [|reflexivity].
  destruct (setEx_reply sc); reflexivity.
Qed.

(** With the secret set, [validateTurnstileToken] makes exactly one call
    and returns how it reads the answer; it never throws. *)
Lemma validateTurnstileToken_run secret token remoteip c st tr :
  TURNSTILE_SECRET_KEY cfg = Some secret -> secret <> "" ->
  validateTurnstileToken cfg sc token remoteip
    {| redisClient := c; redis_store := st; trace := tr |} =
  (Returned (reports_success
               (siteverify sc (siteverify_request secret token remoteip))),
   {| redisClient := c; redis_store := st;
      trace := (verify_events sc (siteverify_request secret token remoteip)
                ++ tr)%list |}).
Proof.
  intros Hs Hne. unfold validateTurnstileToken, fetch, response_json, verify_events.
  rewrite Hs. simpl.
  assert (String.eqb secret "" = false) as -> by (apply String.eqb_neq; exact Hne).
  simpl. run_js.
  destruct (siteverify sc _) as [|status [|v]]; simpl; try reflexivity.
  destruct v; simpl; try reflexivity.
  destruct (props !! "success") as [[| |[|]| | | |]|]; reflexivity.
Qed.

End Steps.

Lemma truthy_Some s : truthy (Some s) = true <-> s <> "".
Proof.
  simpl. rewrite negb_true_iff. apply String.eqb_neq.
Qed.

Lemma truthy_inv o : truthy o = true -> exists s, o = Some s /\ s <> "".
Proof.
  destruct o as [s|]; [|discriminate].
  intros H. exists s. split; [reflexivity | by apply truthy_Some].
Qed.

Section Summary.

Variable cfg : Config.
Variable sc : Scenario.
Variable event : H3Event.

Lemma handler_disabled w :
  truthy (TURNSTILE_SECRET_KEY cfg) = false \/ truthy (REDIS_URL cfg) = false ->
  handler cfg sc event w = (Returned tt, w).
Proof.
  intros [H|H]; unfold handler; rewrite H; simpl; [reflexivity|].
  rewrite orb_true_r. reflexivity.
Qed.

(** [initRedis] as the handler uses it: only whether it settles matters,
    and the world it leaves. *)
Lemma initRedis_then (k : M unit) c st tr :
  let w := {| redisClient := c; redis_store := st; trace := tr |} in
  (initRedis cfg sc ;;; k) w =
  if connect_pends sc w then
    (Pending, {| redisClient := client_after_init cfg sc w; redis_store := st;
                 trace := (init_events cfg sc c ++ tr)%list |})
  else
    k {| redisClient := client_after_init cfg sc w; redis_store := st;
         trace := (init_events cfg sc c ++ tr)%list |}.
Proof.
  cbn zeta. unfold bind. rewrite initRedis_run.
  unfold connect_pends, client_after_init. cbn [redisClient].
  destruct c as [cl|]; [reflexivity|].
  destruct (createClient_ok sc); [|reflexivity].
  destruct (connect_reply sc); reflexivity.
Qed.

Lemma handler_missing c st tr :
  configured cfg ->
  truthy (getHeader event "x-turnstile-token") = false ->
  let w := {| redisClient := c; redis_store := st; trace := tr |} in
  handler cfg sc event w =
  (if connect_pends sc w then Pending else Threw missing_token_error,
   {| redisClient := client_after_init cfg sc w;
      redis_store := st;
      trace := (init_events cfg sc c ++ tr)%list |}).
Proof.
  intros [Hs Hu] Ht w. unfold handler. rewrite Hs, Hu, Ht.
  cbn [negb orb]. unfold w. rewrite initRedis_then.
  destruct (connect_pends sc _); reflexivity.
Qed.

Lemma handler_summary c st tr secret token :
  TURNSTILE_SECRET_KEY cfg = Some secret -> secret <> "" ->
  truthy (REDIS_URL cfg) = true ->
  getHeader event "x-turnstile-token" = Some token -> token <> "" ->
  let w := {| redisClient := c; redis_store := st; trace := tr |} in
  let cl := client_after_init cfg sc w in
  let tr0 := (init_events cfg sc c ++ tr)%list in
  let tr1 := (read_events sc cl token ++ tr0)%list in
  let req := siteverify_request secret token (resolve_remoteip event) in
  handler cfg sc event w =
    if connect_pends sc w then
      (Pending, {| redisClient := cl; redis_store := st; trace := tr0 |})
    else if get_pends cfg sc w then
      (Pending, {| redisClient := cl; redis_store := st; trace := tr1 |})
    else if cache_hit cfg sc w token then
      (Returned tt, {| redisClient := cl; redis_store := st; trace := tr1 |})
    else if reports_success (siteverify sc req) then
      (if setEx_pends cfg sc w then Pending else Returned tt,
       {| redisClient := cl;
          redis_store := stored sc cl st token;
          trace := (write_events sc cl token ++ verify_events sc req ++ tr1)%list |})
    else
      (Threw invalid_token_error,
       {| redisClient := cl; redis_store := st;
          trace := (verify_events sc req ++ tr1)%list |}).
Proof.
  intros Hs Hne Hu Ht Htne w cl tr0 tr1 req.
  unfold handler. rewrite Hs, Hu, Ht.
  assert (truthy (Some secret) = true) as -> by (by apply truthy_Some).
  assert (truthy (Some token) = true) as -> by (by apply truthy_Some).
  cbn [negb orb default from_option id].
  unfold w. rewrite initRedis_then. fold w cl tr0.
  destruct (connect_pends sc w); [reflexivity|].
  unfold bind at 1. rewrite isTokenValid_run. fold tr1.
  assert (Hmiss :
    (isValidFromCloudflare <-
       validateTurnstileToken cfg sc token (resolve_remoteip event) ;;
     if negb isValidFromCloudflare then throw invalid_token_error
     else storeValidToken sc token)
      {| redisClient := cl; redis_store := st; trace := tr1 |} =
    if reports_success (siteverify sc req) then
      (if setEx_pends cfg sc w then Pending else Returned tt,
       {| redisClient := cl; redis_store := stored sc cl st token;
          trace := (write_events sc cl token ++ verify_events sc req ++ tr1)%list |})
    else
      (Threw invalid_token_error,
       {| redisClient := cl; redis_store := st;
          trace := (verify_events sc req ++ tr1)%list |})).
  { unfold bind.
    rewrite (validateTurnstileToken_run cfg sc secret) by assumption.
    fold req. destruct (reports_success (siteverify sc req)); cbn [negb].
    - rewrite storeValidToken_run. unfold setEx_pends. fold cl.
      destruct cl; reflexivity.
    - reflexivity. }
  unfold get_pends, cache_hit. fold cl. cbn [redis_store].
  destruct cl as [cl1|].
  - rewrite (bool_decide_eq_true_2 (Some cl1 <> None))
      by (intros ?; discriminate).
    cbn [andb].
    destruct (get_reply sc); cbn [pends resolves andb negb].
    + destruct (bool_decide _); cbn [negb]; [reflexivity | exact Hmiss].
    + exact Hmiss.
    + reflexivity.
  - rewrite (bool_decide_eq_false_2 (None <> None)) by (intros H; by apply H).
    cbn [andb negb]. exact Hmiss.
Qed.

End Summary.

(** ** Facts about the observations *)

Lemma fetch_calls_app a b :
  fetch_calls (a ++ b) = (fetch_calls a ++ fetch_calls b)%list.
Proof. apply omap_app. Qed.

Lemma cache_reads_app a b :
  cache_reads (a ++ b) = (cache_reads a ++ cache_reads b)%list.
Proof. apply omap_app. Qed.

Lemma cache_writes_app a b :
  cache_writes (a ++ b) = (cache_writes a ++ cache_writes b)%list.
Proof. apply omap_app. Qed.

Lemma init_events_quiet cfg sc c :
  fetch_calls (init_events cfg sc c) = []
  /\ cache_reads (init_events cfg sc c) = []
  /\ cache_writes (init_events cfg sc c) = [].
Proof.
  unfold init_events.
  destruct c; [|destruct (createClient_ok sc); [destruct (connect_reply sc)|]];
    repeat split.
Qed.

Lemma read_events_quiet sc cl token :
  fetch_calls (read_events sc cl token) = []
  /\ cache_writes (read_events sc cl token) = [].
Proof.
  unfold read_events. destruct cl; [destruct (get_reply sc)|]; repeat split.
Qed.

Lemma verify_events_calls sc req :
  fetch_calls (verify_events sc req) = [req]
  /\ cache_writes (verify_events sc req) = [].
Proof.
  unfold verify_events. destruct (reading_throws _); repeat split.
Qed.

Lemma write_events_quiet sc cl token :
  fetch_calls (write_events sc cl token) = [].
Proof.
  unfold write_events. destruct cl; [destruct (setEx_reply sc)|]; reflexivity.
Qed.

Lemma cache_hit_intro cfg sc w token expires :
  client_after_init cfg sc w <> None ->
  get_reply sc = Resolves ->
  redis_store w !! cache_key token = Some ("valid", expires) ->
  get_time sc < expires ->
  cache_hit cfg sc w token = true.
Proof.
  intros Hcl Hget Hst Hlt. unfold cache_hit, redis_lookup.
  rewrite Hget, Hst.
  destruct (Z.leb_spec (get_time sc) expires); [|lia].
  rewrite !bool_decide_eq_true_2; auto.
Qed.

Lemma cache_hit_miss cfg sc w token :
  redis_lookup (redis_store w) (cache_key token) (get_time sc) <> Some "valid" ->
  cache_hit cfg sc w token = false.
Proof.
  intros Hne. unfold cache_hit.
  rewrite (bool_decide_eq_false_2 _ Hne). apply andb_false_r.
Qed.


Lemma get_pends_resolves cfg sc w :
  get_reply sc = Resolves -> get_pends cfg sc w = false.
Proof.
  intros H. unfold get_pends. rewrite H. by destruct (client_after_init _ _ _).
Qed.



(** ** The gate switched off *)

(** C7: when the verification secret or the cache URL is absent from the
    configuration, every request, with or without a token header, is let
    through and the world is left exactly as it was: no cache connection,
    no cache operation, no Verifier call. *)
Theorem unconfigured_gate_passes cfg sc event w :
  TURNSTILE_SECRET_KEY cfg = None \/ REDIS_URL cfg = None ->
  handler cfg sc event w = (Returned tt, w).
Proof.
  intros [H|H]; apply handler_disabled; rewrite H; auto.
Qed.

(** ** Requests without a token *)

(** C4, as the code has it: with the gate configured, a request without
    the [x-turnstile-token] header is rejected with status 401 and the
    missing-token body, whatever the cache holds and whatever the cache
    operations and the Verifier would answer, unless it is the request
    that opens the connection to the cache and that [connect] stays
    pending: [initRedis] is awaited before the header is read, and the
    request is then left unanswered. *)
Theorem missing_token_rejected cfg sc event w :
  configured cfg ->
  getHeader event "x-turnstile-token" = None ->
  fst (handler cfg sc event w) =
  if connect_pends sc w then Pending
  else Threw (H3Error 401 "Authentication required"
                [("error", "Authentication required");
                 ("message", "X-Turnstile-Token header is required")]).
Proof.
  intros Hcfg Hh. destruct w as [c st tr].
  rewrite handler_missing by (rewrite ?Hh; auto). cbn [fst].
  destruct (connect_pends sc _); reflexivity.
Qed.

(** C10, as the code has it: with the gate configured, a request whose
    [x-turnstile-token] header is the empty string is treated exactly as
    the same request with the header removed; neither the cache is read or
    written nor the Verifier called; and the request is rejected with
    status 401 and the missing-token body unless it is the request that
    opens the connection to the cache and that [connect] stays pending, in
    which case it is left unanswered. *)
Theorem empty_token_rejected cfg sc event w :
  configured cfg ->
  getHeader event "x-turnstile-token" = Some "" ->
  let w' := snd (handler cfg sc event w) in
  fst (handler cfg sc event w) =
    (if connect_pends sc w then Pending
     else Threw (H3Error 401 "Authentication required"
                   [("error", "Authentication required");
                    ("message", "X-Turnstile-Token header is required")]))
  /\ handler cfg sc event w =
     handler cfg sc
       {| headers := delete "x-turnstile-token" (headers event);
          requestIP := requestIP event |} w
  /\ fetch_calls (trace w') = fetch_calls (trace w)
  /\ cache_reads (trace w') = cache_reads (trace w)
  /\ cache_writes (trace w') = cache_writes (trace w)
  /\ redis_store w' = redis_store w.
Proof.
  intros Hcfg Hh w'. subst w'. destruct w as [c st tr].
  rewrite (handler_missing cfg sc event) by (rewrite ?Hh; auto).
  rewrite (handler_missing cfg sc {| headers := _ |})
    by (auto; unfold getHeader; cbn [headers]; by rewrite lookup_delete_eq).
  cbn [fst snd trace redis_store].
  rewrite fetch_calls_app, cache_reads_app, cache_writes_app.
  destruct (init_events_quiet cfg sc c) as (-> & -> & ->).
  split; [by destruct (connect_pends sc _)|]. repeat split.
Qed.

(** ** Requests with a token *)

(** A hit in the cache: the shared step behind the cache claims. *)
Lemma cache_hit_run cfg sc event w token expires :
  configured cfg ->
  getHeader event "x-turnstile-token" = Some token -> token <> "" ->
  connect_pends sc w = false ->
  client_after_init cfg sc w <> None -> get_reply sc = Resolves ->
  redis_store w !! cache_key token = Some ("valid", expires) ->
  get_time sc < expires ->
  exists w',
    handler cfg sc event w = (Returned tt, w')
    /\ fetch_calls (trace w') = fetch_calls (trace w)
    /\ redis_store w' = redis_store w.
Proof.
  intros [Hs Hu] Hh Hne Hconn Hcl Hget Hst Hlt.
  destruct (truthy_inv _ Hs) as (secret & Hsec & Hsne).
  destruct w as [c st tr].
  rewrite (handler_summary cfg sc event c st tr secret token) by assumption.
  rewrite Hconn, (get_pends_resolves cfg sc _ Hget).
  rewrite (cache_hit_intro cfg sc _ token expires) by assumption.
  eexists. split; [reflexivity|]. cbn [trace redis_store]. split; [|reflexivity].
  rewrite !fetch_calls_app.
  destruct (read_events_quiet sc
              (client_after_init cfg sc
                 {| redisClient := c; redis_store := st; trace := tr |}) token)
    as [-> _].
  destruct (init_events_quiet cfg sc c) as (-> & _). reflexivity.
Qed.

(** C2: with the gate configured, a request carrying a token for which
    the cache answers and holds an unexpired ["valid"] entry is let
    through, and no call to the Verifier is made. *)
Theorem cached_token_allowed cfg sc event w token expires :
  configured cfg ->
  getHeader event "x-turnstile-token" = Some token -> token <> "" ->
  connect_pends sc w = false ->
  client_after_init cfg sc w <> None -> get_reply sc = Resolves ->
  redis_store w !! cache_key token = Some ("valid", expires) ->
  get_time sc < expires ->
  exists w',
    handler cfg sc event w = (Returned tt, w')
    /\ fetch_calls (trace w') = fetch_calls (trace w)
    /\ redis_store w' = redis_store w.
Proof.
  intros Hcfg Hh Hne Hconn Hcl Hget Hst Hlt.
  exact (cache_hit_run cfg sc event w token expires
           Hcfg Hh Hne Hconn Hcl Hget Hst Hlt).
Qed.

(** C1: with the gate configured and the cache answering and accepting
    the write, a request whose token has no unexpired ["valid"] entry and
    for which the Verifier reports success is let through, and the entry
    ["turnstile:" ++ token] is written with value ["valid"] and a TTL of
    600 seconds; a repeat request with the same token that reads the cache
    before the entry expires is let through without a Verifier call. *)
Theorem verified_token_is_cached cfg sc event w secret token :
  TURNSTILE_SECRET_KEY cfg = Some secret -> secret <> "" ->
  truthy (REDIS_URL cfg) = true ->
  getHeader event "x-turnstile-token" = Some token -> token <> "" ->
  connect_pends sc w = false -> get_pends cfg sc w = false ->
  client_after_init cfg sc w <> None -> setEx_reply sc = Resolves ->
  redis_lookup (redis_store w) (cache_key token) (get_time sc) <> Some "valid" ->
  reports_success
    (siteverify sc (siteverify_request secret token (resolve_remoteip event)))
  = true ->
  exists w',
    handler cfg sc event w = (Returned tt, w')
    /\ cache_writes (trace w') =
       ("turnstile:" ++ token, 600, "valid") :: cache_writes (trace w)
    /\ redis_store w' =
       <["turnstile:" ++ token := ("valid", setEx_time sc + 600 * 1000)]>
         (redis_store w)
    /\ forall sc2 event2,
         getHeader event2 "x-turnstile-token" = Some token ->
         get_reply sc2 = Resolves ->
         get_time sc2 < setEx_time sc + 600 * 1000 ->
         exists w'',
           handler cfg sc2 event2 w' = (Returned tt, w'')
           /\ fetch_calls (trace w'') = fetch_calls (trace w').
Proof.
  intros Hs Hsne Hu Hh Hne Hconn Hread Hcl Hset Hmiss Hok.
  destruct w as [c st tr].
  rewrite (handler_summary cfg sc event c st tr secret token) by assumption.
  rewrite Hconn, Hread.
  rewrite cache_hit_miss by exact Hmiss. rewrite Hok.
  unfold setEx_pends. rewrite Hset.
  destruct (client_after_init cfg sc _) as [cl|] eqn:Hcl'; [|by destruct Hcl].
  cbn [pends].
  eexists. split; [reflexivity|]. cbn [trace redis_store].
  unfold stored, write_events. rewrite Hset. cbn [resolves].
  split; [|split; [reflexivity|]].
  - rewrite !cache_writes_app.
    destruct (verify_events_calls sc
                (siteverify_request secret token (resolve_remoteip event)))
      as [_ ->].
    destruct (read_events_quiet sc (Some cl) token) as [_ ->].
    destruct (init_events_quiet cfg sc c) as (_ & _ & ->). reflexivity.
  - intros sc2 event2 Hh2 Hget2 Hlt2.
    destruct (cache_hit_run cfg sc2 event2
                {| redisClient := Some cl;
                   redis_store := redis_write st (cache_key token) 600 "valid"
                                    (setEx_time sc);
                   trace := ([EvSetEx (cache_key token) 600 "valid"]
                             ++ verify_events sc
                                  (siteverify_request secret token
                                     (resolve_remoteip event))
                             ++ read_events sc (Some cl) token
                             ++ init_events cfg sc c ++ tr)%list |}
                token (setEx_time sc + 600 * 1000))
      as (w'' & Hrun & Hcalls & _); try assumption; try reflexivity.
    + split; [|assumption]. rewrite Hs. by apply truthy_Some.
    + cbn [redis_store]. unfold redis_write. apply lookup_insert_eq.
    + exists w''. split; assumption.
Qed.

(** C3: with the gate configured and the cache calls settling, a request
    whose token has no unexpired ["valid"] entry and for which the
    Verifier's answer is not a success (the call is rejected, the body is
    not JSON, or its [success] is not [true]) is rejected with status 401
    and the invalid-token body, and nothing is written to the cache. *)
Theorem failed_verification_rejected cfg sc event w secret token :
  TURNSTILE_SECRET_KEY cfg = Some secret -> secret <> "" ->
  truthy (REDIS_URL cfg) = true ->
  getHeader event "x-turnstile-token" = Some token -> token <> "" ->
  connect_pends sc w = false -> get_pends cfg sc w = false ->
  redis_lookup (redis_store w) (cache_key token) (get_time sc) <> Some "valid" ->
  reports_success
    (siteverify sc (siteverify_request secret token (resolve_remoteip event)))
  = false ->
  exists w',
    handler cfg sc event w =
      (Threw (H3Error 401 "Invalid token"
                [("error", "Invalid token");
                 ("message", "Turnstile token validation failed")]), w')
    /\ redis_store w' = redis_store w
    /\ cache_writes (trace w') = cache_writes (trace w).
Proof.
  intros Hs Hsne Hu Hh Hne Hconn Hread Hmiss Hfail.
  destruct w as [c st tr].
  rewrite (handler_summary cfg sc event c st tr secret token) by assumption.
  rewrite Hconn, Hread.
  rewrite cache_hit_miss by exact Hmiss. rewrite Hfail.
  eexists. split; [reflexivity|]. cbn [trace redis_store].
  split; [reflexivity|].
  rewrite !cache_writes_app.
  destruct (verify_events_calls sc
              (siteverify_request secret token (resolve_remoteip event)))
    as [_ ->].
  destruct (read_events_quiet sc
              (client_after_init cfg sc
                 {| redisClient := c; redis_store := st; trace := tr |}) token)
    as [_ ->].
  destruct (init_events_quiet cfg sc c) as (_ & _ & ->). reflexivity.
Qed.

(** ** The ways a request can go *)

Lemma handler_cases cfg sc event c st tr :
  let w := {| redisClient := c; redis_store := st; trace := tr |} in
  let cl := client_after_init cfg sc w in
  let tr0 := (init_events cfg sc c ++ tr)%list in
  handler cfg sc event w = (Returned tt, w)
  \/ handler cfg sc event w =
     (if connect_pends sc w then Pending else Threw missing_token_error,
      {| redisClient := cl; redis_store := st; trace := tr0 |})
  \/ exists secret token,
       TURNSTILE_SECRET_KEY cfg = Some secret /\ secret <> ""
       /\ getHeader event "x-turnstile-token" = Some token /\ token <> ""
       /\ let tr1 := (read_events sc cl token ++ tr0)%list in
          let req := siteverify_request secret token (resolve_remoteip event) in
          handler cfg sc event w =
          if connect_pends sc w then
            (Pending, {| redisClient := cl; redis_store := st; trace := tr0 |})
          else if get_pends cfg sc w then
            (Pending, {| redisClient := cl; redis_store := st; trace := tr1 |})
          else if cache_hit cfg sc w token then
            (Returned tt, {| redisClient := cl; redis_store := st; trace := tr1 |})
          else if reports_success (siteverify sc req) then
            (if setEx_pends cfg sc w then Pending else Returned tt,
             {| redisClient := cl;
                redis_store := stored sc cl st token;
                trace := (write_events sc cl token
                          ++ verify_events sc req ++ tr1)%list |})
          else
            (Threw invalid_token_error,
             {| redisClient := cl; redis_store := st;
                trace := (verify_events sc req ++ tr1)%list |}).
Proof.
  intros w cl tr0.
  destruct (truthy (TURNSTILE_SECRET_KEY cfg)) eqn:Hs;
    [|left; apply handler_disabled; auto].
  destruct (truthy (REDIS_URL cfg)) eqn:Hu;
    [|left; apply handler_disabled; auto].
  destruct (truthy (getHeader event "x-turnstile-token")) eqn:Ht.
  - right. right.
    destruct (truthy_inv _ Hs) as (secret & Hsec & Hsne).
    destruct (truthy_inv _ Ht) as (token & Htok & Htne).
    exists secret, token. repeat (split; [assumption|]).
    apply handler_summary; assumption.
  - right. left. apply handler_missing; [split|]; assumption.
Qed.

(** Splits a request into its courses: gate off; token missing; left
    pending by [connect]; left pending by [get]; cache hit; verified;
    refused. *)
Ltac handler_courses cfg sc event w :=
  let c := fresh "c" in
  let st := fresh "st" in
  let tr := fresh "tr" in
  let secret := fresh "secret" in
  let token := fresh "token" in
  let Hs := fresh "Hs" in
  let Hsne := fresh "Hsne" in
  let Hh := fresh "Hh" in
  let Hne := fresh "Hne" in
  let Hconn := fresh "Hconn" in
  let Hread := fresh "Hread" in
  let Hhit := fresh "Hhit" in
  let Hok := fresh "Hok" in
  destruct w as [c st tr];
  destruct (handler_cases cfg sc event c st tr)
    as [-> | [-> | (secret & token & Hs & Hsne & Hh & Hne & ->)]];
  [ | | destruct (connect_pends sc _) eqn:Hconn;
        [ | destruct (get_pends cfg sc _) eqn:Hread;
            [ | destruct (cache_hit cfg sc _ token) eqn:Hhit;
                [ | destruct (reports_success
                                (siteverify sc
                                   (siteverify_request secret token
                                      (resolve_remoteip event)))) eqn:Hok ] ] ] ];
  cbn [fst snd trace redis_store redisClient] in *.

(** ** Writes and verification *)

Lemma verified_in_app key a b :
  verified_in key a \/ verified_in key b -> verified_in key (a ++ b).
Proof.
  intros [H|H]; destruct H as (req & answer & token & Hin & Hrest);
    exists req, answer, token; (split; [|exact Hrest]);
    apply elem_of_app; auto.
Qed.

Lemma writes_justified_quiet l :
  cache_writes l = [] -> writes_justified l.
Proof.
  induction l as [|e l IH]; [constructor|].
  destruct e; cbn; try exact IH. discriminate.
Qed.

Lemma writes_justified_app a b :
  writes_justified a -> writes_justified b -> writes_justified (a ++ b).
Proof.
  intros Ha Hb. induction a as [|e a IH]; [exact Hb|].
  destruct e; cbn in *; try (apply IH; exact Ha).
  destruct Ha as [Hv Ha]. split; [|apply IH; exact Ha].
  apply verified_in_app. left. exact Hv.
Qed.

Lemma writes_justified_split tr newer older key seconds value :
  writes_justified tr ->
  tr = (newer ++ EvSetEx key seconds value :: older)%list ->
  verified_in key older.
Proof.
  intros Hj ->. induction newer as [|e newer IH].
  - exact (proj1 Hj).
  - apply IH. destruct e; cbn in Hj; try exact Hj. exact (proj2 Hj).
Qed.

Lemma verify_events_verified sc secret token remoteip :
  let req := siteverify_request secret token remoteip in
  reports_success (siteverify sc req) = true ->
  verified_in (cache_key token) (verify_events sc req).
Proof.
  intros req Hok. exists req, (siteverify sc req), token.
  split; [|split; [reflexivity | split; [reflexivity | exact Hok]]].
  unfold verify_events. apply elem_of_app. right. apply list_elem_of_singleton.
  reflexivity.
Qed.

(** What one request adds to the trace and does to the keyspace. *)
Lemma handler_step cfg sc event w :
  let w' := snd (handler cfg sc event w) in
  exists new,
    trace w' = (new ++ trace w)%list
    /\ writes_justified new
    /\ (redis_store w' = redis_store w
        \/ exists token now,
             redis_store w' =
               redis_write (redis_store w) (cache_key token) 600 "valid" now
             /\ verified_in (cache_key token) new).
Proof.
  cbn zeta. handler_courses cfg sc event w.
  - exists []. cbn. auto.
  - exists (init_events cfg sc c). split; [reflexivity|]. split; [|auto].
    apply writes_justified_quiet, init_events_quiet.
  - exists (init_events cfg sc c). split; [reflexivity|]. split; [|auto].
    apply writes_justified_quiet, init_events_quiet.
  - set (cl := client_after_init cfg sc _).
    exists (read_events sc cl token ++ init_events cfg sc c)%list.
    rewrite <- app_assoc. split; [reflexivity|]. split; [|auto].
    apply writes_justified_app; apply writes_justified_quiet.
    + apply read_events_quiet.
    + apply init_events_quiet.
  - set (cl := client_after_init cfg sc _).
    exists (read_events sc cl token ++ init_events cfg sc c)%list.
    rewrite <- app_assoc. split; [reflexivity|]. split; [|auto].
    apply writes_justified_app; apply writes_justified_quiet.
    + apply read_events_quiet.
    + apply init_events_quiet.
  - set (cl := client_after_init cfg sc _).
    set (req := siteverify_request secret token (resolve_remoteip event)).
    exists (write_events sc cl token ++ verify_events sc req
            ++ read_events sc cl token ++ init_events cfg sc c)%list.
    rewrite <- !app_assoc. split; [reflexivity|].
    pose proof (verify_events_verified sc secret token
                  (resolve_remoteip event) Hok) as Hv. fold req in Hv.
    assert (Hv' : verified_in (cache_key token)
                    (verify_events sc req ++ read_events sc cl token
                     ++ init_events cfg sc c)).
    { apply verified_in_app. left. exact Hv. }
    assert (Hrest : writes_justified
                      (verify_events sc req ++ read_events sc cl token
                       ++ init_events cfg sc c)).
    { apply writes_justified_app;
        [apply writes_justified_quiet, verify_events_calls|].
      apply writes_justified_app; apply writes_justified_quiet.
      - apply read_events_quiet.
      - apply init_events_quiet. }
    unfold write_events, stored.
    destruct cl as [cl0|]; [destruct (setEx_reply sc)|]; cbn; auto.
    split; [auto|]. right. exists token, (setEx_time sc).
    split; [reflexivity|].
    apply (verified_in_app _ [EvSetEx (cache_key token) 600 "valid"]). auto.
  - set (cl := client_after_init cfg sc _).
    set (req := siteverify_request secret token (resolve_remoteip event)).
    exists (verify_events sc req ++ read_events sc cl token
            ++ init_events cfg sc c)%list.
    rewrite <- !app_assoc. split; [reflexivity|]. split; [|auto].
    apply writes_justified_app;
      [apply writes_justified_quiet, verify_events_calls|].
    apply writes_justified_app; apply writes_justified_quiet.
    + apply read_events_quiet.
    + apply init_events_quiet.
Qed.

Lemma run_invariant cfg (st0 : gmap string (string * Z)) requests w :
  writes_justified (trace w) ->
  (forall key entry,
     redis_store w !! key = Some entry ->
     st0 !! key = Some entry \/ verified_in key (trace w)) ->
  let final := snd (run cfg requests w) in
  writes_justified (trace final)
  /\ forall key entry,
       redis_store final !! key = Some entry ->
       st0 !! key = Some entry \/ verified_in key (trace final).
Proof.
  revert w. induction requests as [|[sc event] rest IH]; intros w Hj Hst.
  - cbn. auto.
  - cbn [run].
    destruct (handler_step cfg sc event w) as (new & Htr & Hnew & Hstore).
    destruct (handler cfg sc event w) as [r w1]. cbn [snd] in Htr, Hstore.
    specialize (IH w1).
    destruct (run cfg rest w1) as [rs w2]. cbn [snd] in *.
    apply IH.
    + rewrite Htr. by apply writes_justified_app.
    + intros key entry Hk. rewrite Htr.
      destruct Hstore as [Heq | (token & now & Heq & Hv)]; rewrite Heq in Hk.
      * destruct (Hst key entry Hk) as [Hold | Hold]; [by left|].
        right. apply verified_in_app. by right.
      * unfold redis_write in Hk.
        destruct (decide (cache_key token = key)) as [<- | Hdiff].
        -- right. apply verified_in_app. by left.
        -- rewrite lookup_insert_ne in Hk by exact Hdiff.
           destruct (Hst key entry Hk) as [Hold | Hold]; [by left|].
           right. apply verified_in_app. by right.
Qed.

(** C5: over every sequence of requests served from process start, each
    cache write in the trace comes after a Verifier call, for the token
    being written, that reported success; and every entry of the keyspace
    either was there at the start or belongs to such a token. *)
Theorem cache_written_only_after_verification cfg requests
    (st : gmap string (string * Z)) :
  let final := snd (run cfg requests (initial_world st)) in
  writes_follow_verification (trace final)
  /\ forall key entry,
       redis_store final !! key = Some entry ->
       st !! key = Some entry \/ verified_in key (trace final).
Proof.
  destruct (run_invariant cfg st requests (initial_world st)) as [Hj Hst].
  - exact I.
  - intros key entry Hk. by left.
  - split; [|exact Hst].
    intros newer older key seconds value Heq.
    exact (writes_justified_split _ _ _ _ _ _ Hj Heq).
Qed.

(** ** The Verifier's answer *)

(** C6, as the code has it: with the secret set, the verification
    succeeds exactly when the body of the answer is a JSON object whose
    [success] field is the boolean [true]; a rejected call, a body that is
    not JSON and every other shape are failures, and the HTTP status of the
    answer plays no part. *)
Theorem verification_reads_body_only cfg sc token remoteip w secret :
  TURNSTILE_SECRET_KEY cfg = Some secret -> secret <> "" ->
  let answer := siteverify sc (siteverify_request secret token remoteip) in
  exists verdict,
    fst (validateTurnstileToken cfg sc token remoteip w) = Returned verdict
    /\ (verdict = true <->
        exists status props,
          answer = FetchResponse status (Json (JObj props))
          /\ props !! "success" = Some (JBool true)).
Proof.
  intros Hs Hne answer. destruct w as [c st tr].
  rewrite (validateTurnstileToken_run cfg sc secret) by assumption.
  fold answer. exists (reports_success answer). split; [reflexivity|].
  unfold reports_success.
  destruct answer as [|status [|v]];
    try (split; [discriminate | intros (? & ? & ? & _); discriminate]).
  destruct v;
    try (split; [discriminate | intros (? & ? & ? & _); discriminate]).
  destruct (props !! "success") as [[| |[|]| | | |]|] eqn:Hp;
    try (split; [discriminate
                | intros (? & ? & [= <- <-] & Hp'); rewrite Hp in Hp';
                  discriminate]).
  split; [|reflexivity]. intros _. eauto.
Qed.

(** ** The client address *)

Lemma resolve_remoteip_first event :
  siteverify_params_ip (resolve_remoteip event) =
  siteverify_params_ip
    (first_nonempty [getRequestIP event;
                     getHeader event "cf-connecting-ip";
                     getHeader event "x-forwarded-for"]).
Proof.
  unfold resolve_remoteip, js_or, first_nonempty.
  destruct (truthy (getRequestIP event)) eqn:H1.
  { rewrite H1. reflexivity. }
  destruct (truthy (getHeader event "cf-connecting-ip")) eqn:H2.
  { reflexivity. }
  destruct (truthy (getHeader event "x-forwarded-for")) eqn:H3.
  { reflexivity. }
  unfold siteverify_params_ip. rewrite H3. reflexivity.
Qed.

Lemma first_nonempty_field candidates :
  siteverify_params_ip (first_nonempty candidates) =
  match first_nonempty candidates with
  | Some ip => [("remoteip", ip)]
  | None => []
  end.
Proof.
  induction candidates as [|c rest IH]; [reflexivity|].
  cbn [first_nonempty]. destruct (truthy c) eqn:Hc; [|exact IH].
  unfold siteverify_params_ip. rewrite Hc.
  destruct c; [reflexivity | discriminate].
Qed.

(** The calls to the Verifier after a request that missed the cache. *)
Lemma miss_calls_verifier cfg sc event w secret token :
  TURNSTILE_SECRET_KEY cfg = Some secret -> secret <> "" ->
  truthy (REDIS_URL cfg) = true ->
  getHeader event "x-turnstile-token" = Some token -> token <> "" ->
  connect_pends sc w = false -> get_pends cfg sc w = false ->
  cache_hit cfg sc w token = false ->
  fetch_calls (trace (snd (handler cfg sc event w))) =
  siteverify_request secret token (resolve_remoteip event)
  :: fetch_calls (trace w).
Proof.
  intros Hs Hsne Hu Hh Hne Hconn Hread Hmiss. destruct w as [c st tr].
  rewrite (handler_summary cfg sc event c st tr secret token) by assumption.
  rewrite Hconn, Hread, Hmiss.
  set (cl := client_after_init cfg sc _).
  set (req := siteverify_request secret token (resolve_remoteip event)).
  assert (Hcalls : fetch_calls (verify_events sc req ++ read_events sc cl token
                                ++ init_events cfg sc c ++ tr) =
                   req :: fetch_calls tr).
  { rewrite !fetch_calls_app.
    destruct (verify_events_calls sc req) as [-> _].
    destruct (read_events_quiet sc cl token) as [-> _].
    destruct (init_events_quiet cfg sc c) as (-> & _). reflexivity. }
  destruct (reports_success (siteverify sc req)); cbn [snd trace].
  - rewrite fetch_calls_app, write_events_quiet. exact Hcalls.
  - exact Hcalls.
Qed.

(** C9: on a cache miss (the cache calls settle and give no unexpired
    ["valid"], or are rejected) the Verifier is called once, and the
    client address it is sent is the first non-empty of the platform's
    request IP, the [cf-connecting-ip] header and the [x-forwarded-for]
    header, in that order; a non-empty platform IP is therefore the one
    sent, and with none of the three non-empty the [remoteip] field is
    left out. *)
Theorem remoteip_precedence cfg sc event w secret token :
  TURNSTILE_SECRET_KEY cfg = Some secret -> secret <> "" ->
  truthy (REDIS_URL cfg) = true ->
  getHeader event "x-turnstile-token" = Some token -> token <> "" ->
  connect_pends sc w = false -> get_pends cfg sc w = false ->
  cache_hit cfg sc w token = false ->
  let w' := snd (handler cfg sc event w) in
  let sent fields :=
    {| url := "https://challenges.cloudflare.com/turnstile/v0/siteverify";
       method := "POST";
       content_type := "application/x-www-form-urlencoded";
       body := ("secret", secret) :: ("response", token) :: fields |} in
  fetch_calls (trace w') =
    sent match first_nonempty [getRequestIP event;
                               getHeader event "cf-connecting-ip";
                               getHeader event "x-forwarded-for"] with
         | Some ip => [("remoteip", ip)]
         | None => []
         end
    :: fetch_calls (trace w)
  /\ (forall ip,
        getRequestIP event = Some ip -> ip <> "" ->
        fetch_calls (trace w') = sent [("remoteip", ip)] :: fetch_calls (trace w))
  /\ (truthy (getRequestIP event) = false ->
      truthy (getHeader event "cf-connecting-ip") = false ->
      truthy (getHeader event "x-forwarded-for") = false ->
      fetch_calls (trace w') = sent [] :: fetch_calls (trace w)).
Proof.
  intros Hs Hsne Hu Hh Hne Hconn Hread Hmiss w' sent.
  assert (Hgen : fetch_calls (trace w') =
                 sent match first_nonempty [getRequestIP event;
                                            getHeader event "cf-connecting-ip";
                                            getHeader event "x-forwarded-for"] with
                      | Some ip => [("remoteip", ip)]
                      | None => []
                      end
                 :: fetch_calls (trace w)).
  { unfold w'. rewrite (miss_calls_verifier cfg sc event w secret token)
      by assumption.
    unfold siteverify_request, siteverify_params, sent.
    rewrite resolve_remoteip_first, first_nonempty_field. reflexivity. }
  split; [exact Hgen|]. split.
  - intros ip Hip Hipne. rewrite Hgen. cbn [first_nonempty]. rewrite Hip.
    assert (truthy (Some ip) = true) as -> by (by apply truthy_Some).
    reflexivity.
  - intros H1 H2 H3. rewrite Hgen. cbn [first_nonempty].
    rewrite H1, H2, H3. reflexivity.
Qed.

(** ** The cache failing *)



(** ** The claims on the sample requests *)

(** A first request with a good token: connect, read, verify, store. *)
Example sample_first_request :
  let w' := snd (handler cfg_on (scenario true 1000 answer_ok) ev_token
                   (initial_world ∅)) in
  rev (trace w') =
    [EvCreateClient (Some "redis://cache:6379"); EvConnect;
     EvConsole "log" "Connected to Redis for Turnstile caching";
     EvGet "turnstile:tok";
     EvFetch (siteverify_request "s3cr3t" "tok" (Some "192.0.2.1")) answer_ok;
     EvSetEx "turnstile:tok" 600 "valid"]
  /\ redis_store w' = {[ "turnstile:tok" := ("valid", 601000) ]}.
Proof. vm_compute. split; reflexivity. Qed.

(** The same token again within ten minutes is served from the cache;
    past ten minutes it is verified again. *)
Example sample_repeat_request :
  let w1 := snd (handler cfg_on (scenario true 1000 answer_ok) ev_token
                   (initial_world ∅)) in
  handler cfg_on (scenario true 601000 FetchRejected) ev_token w1
    = (Returned tt,
       {| redisClient := redisClient w1; redis_store := redis_store w1;
          trace := EvGet "turnstile:tok" :: trace w1 |})
  /\ fst (handler cfg_on (scenario true 601001 FetchRejected) ev_token w1)
     = Threw invalid_token_error.
Proof. vm_compute. split; reflexivity. Qed.

(** With the cache rejecting every operation the good token still
    passes, and nothing is kept. *)
Example sample_cache_down :
  let w' := snd (handler cfg_on (scenario false 1000 answer_ok) ev_token
                   (initial_world ∅)) in
  fst (handler cfg_on (scenario false 1000 answer_ok) ev_token (initial_world ∅))
    = Returned tt
  /\ redis_store w' = ∅
  /\ redisClient w' = Some (Client (Some "redis://cache:6379")).
Proof. vm_compute. repeat split. Qed.

Lemma unconfigured_gate_passes_witness :
  handler cfg_off (scenario true 0 answer_no) ev_bare (initial_world ∅)
  = (Returned tt, initial_world ∅).
Proof.
  apply (unconfigured_gate_passes cfg_off (scenario true 0 answer_no) ev_bare
           (initial_world ∅)).
  left. reflexivity.
Defined.

Lemma missing_token_rejected_witness :
  fst (handler cfg_on (scenario true 0 answer_ok) ev_bare world_cached) =
  Threw (H3Error 401 "Authentication required"
           [("error", "Authentication required");
            ("message", "X-Turnstile-Token header is required")]).
Proof.
  apply (missing_token_rejected cfg_on (scenario true 0 answer_ok) ev_bare
           world_cached).
  - split; reflexivity.
  - reflexivity.
Defined.

(** C4 as stated fails: on the first request of a process whose cache
    server cannot be reached, [connect] stays pending, and a request
    without the header is not rejected but left unanswered. *)
Lemma missing_token_unanswered :
  configured cfg_on
  /\ getHeader ev_bare "x-turnstile-token" = None
  /\ fst (handler cfg_on (scenario_hung 0 answer_ok) ev_bare (initial_world ∅))
     = Pending
  /\ fst (handler cfg_on (scenario_hung 0 answer_ok) ev_bare (initial_world ∅))
     <> Threw (H3Error 401 "Authentication required"
                 [("error", "Authentication required");
                  ("message", "X-Turnstile-Token header is required")]).
Proof.
  vm_compute. repeat split. discriminate.
Qed.

Lemma empty_token_rejected_witness :
  fetch_calls
    (trace (snd (handler cfg_on (scenario true 0 answer_ok) ev_empty world_cached)))
  = fetch_calls (trace world_cached).
Proof.
  apply (empty_token_rejected cfg_on (scenario true 0 answer_ok) ev_empty
           world_cached).
  - split; reflexivity.
  - reflexivity.
Defined.

(** C10 as stated fails in the same state: with [connect] pending, the
    request with an empty header is left unanswered, not rejected. *)
Lemma empty_token_unanswered :
  configured cfg_on
  /\ getHeader ev_empty "x-turnstile-token" = Some ""
  /\ fst (handler cfg_on (scenario_hung 0 answer_ok) ev_empty (initial_world ∅))
     = Pending
  /\ fst (handler cfg_on (scenario_hung 0 answer_ok) ev_empty (initial_world ∅))
     <> Threw (H3Error 401 "Authentication required"
                 [("error", "Authentication required");
                  ("message", "X-Turnstile-Token header is required")]).
Proof.
  vm_compute. repeat split. discriminate.
Qed.

Lemma cached_token_allowed_witness :
  exists w',
    handler cfg_on (scenario true 1000 answer_no) ev_token world_cached
    = (Returned tt, w')
    /\ fetch_calls (trace w') = fetch_calls (trace world_cached)
    /\ redis_store w' = redis_store world_cached.
Proof.
  apply (cached_token_allowed cfg_on (scenario true 1000 answer_no) ev_token
           world_cached "tok" 600000).
  - split; reflexivity.
  - reflexivity.
  - discriminate.
  - reflexivity.
  - vm_compute. discriminate.
  - reflexivity.
  - reflexivity.
  - vm_compute. reflexivity.
Defined.

Lemma verified_token_is_cached_witness :
  exists w',
    handler cfg_on (scenario true 1000 answer_ok) ev_token (initial_world ∅)
    = (Returned tt, w')
    /\ cache_writes (trace w') = [("turnstile:tok", 600, "valid")].
Proof.
  destruct (verified_token_is_cached cfg_on (scenario true 1000 answer_ok)
              ev_token (initial_world ∅) "s3cr3t" "tok")
    as (w' & Hrun & Hwrites & _).
  - reflexivity.
  - discriminate.
  - reflexivity.
  - reflexivity.
  - discriminate.
  - reflexivity.
  - reflexivity.
  - vm_compute. discriminate.
  - reflexivity.
  - vm_compute. discriminate.
  - reflexivity.
  - exists w'. split; [exact Hrun | exact Hwrites].
Defined.

Lemma failed_verification_rejected_witness :
  exists w',
    handler cfg_on (scenario true 1000 answer_no) ev_token (initial_world ∅) =
      (Threw (H3Error 401 "Invalid token"
                [("error", "Invalid token");
                 ("message", "Turnstile token validation failed")]), w')
    /\ redis_store w' = redis_store (initial_world ∅)
    /\ cache_writes (trace w') = cache_writes (trace (initial_world ∅)).
Proof.
  apply (failed_verification_rejected cfg_on (scenario true 1000 answer_no)
           ev_token (initial_world ∅) "s3cr3t" "tok").
  - reflexivity.
  - discriminate.
  - reflexivity.
  - reflexivity.
  - discriminate.
  - reflexivity.
  - reflexivity.
  - vm_compute. discriminate.
  - reflexivity.
Defined.

Lemma verification_reads_body_only_witness :
  exists verdict,
    fst (validateTurnstileToken cfg_on (scenario true 0 answer_ok) "tok" None
           (initial_world ∅)) = Returned verdict
    /\ (verdict = true <->
        exists status props,
          answer_ok = FetchResponse status (Json (JObj props))
          /\ props !! "success" = Some (JBool true)).
Proof.
  apply (verification_reads_body_only cfg_on (scenario true 0 answer_ok) "tok"
           None (initial_world ∅) "s3cr3t").
  - reflexivity.
  - discriminate.
Defined.

Lemma remoteip_precedence_witness :
  fetch_calls
    (trace (snd (handler cfg_on (scenario true 1000 answer_ok) ev_token
                   (initial_world ∅))))
  = [ {| url := "https://challenges.cloudflare.com/turnstile/v0/siteverify";
         method := "POST";
         content_type := "application/x-www-form-urlencoded";
         body := [("secret", "s3cr3t"); ("response", "tok");
                  ("remoteip", "192.0.2.1")] |} ].
Proof.
  refine (proj1 (proj2 (remoteip_precedence cfg_on (scenario true 1000 answer_ok)
                          ev_token (initial_world ∅) "s3cr3t" "tok"
                          _ _ _ _ _ _ _ _)) "192.0.2.1" _ _).
  - reflexivity.
  - discriminate.
  - reflexivity.
  - reflexivity.
  - discriminate.
  - reflexivity.
  - reflexivity.
  - vm_compute. reflexivity.
  - reflexivity.
  - discriminate.
Defined.



(** C6 as stated fails: a 500 answer whose body is [{"success": true}]
    is no success by the interface description, yet
    [validateTurnstileToken] returns [true] on it and the request is let
    through. *)
Lemma non_2xx_success_accepted :
  is_2xx 500 = false
  /\ spec_reports_success answer_500 = false
  /\ fst (validateTurnstileToken cfg_on (scenario true 0 answer_500) "tok" None
            (initial_world ∅)) = Returned true
  /\ fst (handler cfg_on (scenario true 0 answer_500) ev_token (initial_world ∅))
     = Returned tt.
Proof.
  vm_compute. repeat split.
Qed.

(** * Further properties of the module *)

(** ** Tools *)

Lemma redis_lookup_fresh st key seconds value now later :
  redis_lookup (redis_write st key seconds value now) key later =
  if Z.leb later (now + seconds * 1000) then Some value else None.
Proof.
  unfold redis_lookup, redis_write. rewrite lookup_insert_eq. reflexivity.
Qed.

Lemma redis_lookup_other st key key' seconds value now later :
  key <> key' ->
  redis_lookup (redis_write st key seconds value now) key' later =
  redis_lookup st key' later.
Proof.
  intros Hne. unfold redis_lookup, redis_write.
  rewrite lookup_insert_ne by exact Hne. reflexivity.
Qed.

Lemma cache_key_inj a b : cache_key a = cache_key b -> a = b.
Proof.
  unfold cache_key. cbn. intros H. by simplify_eq.
Qed.

(** Opens the event lists of the phases, one case per behaviour of the
    outside. *)
Ltac open_phases cfg sc c :=
  unfold init_events, read_events, write_events, verify_events, stored,
    client_after_init;
  cbn [redisClient];
  destruct c;
  destruct (createClient_ok sc); destruct (connect_reply sc);
  destruct (get_reply sc); destruct (setEx_reply sc);
  try match goal with
      | |- context [reading_throws ?a] => destruct (reading_throws a)
      end;
  cbn.

(** ** The four helpers on their own *)

(** X1: [initRedis] never throws.  It is left pending exactly when no
    client was set, [createClient] returned and [connect] stays pending;
    it returns [null] exactly when no client was set and [createClient]
    threw or [connect] was rejected.  The variable [redisClient] itself
    stays unset only when [createClient] threw, so a client whose
    [connect] was rejected or is pending is kept.  The keyspace is not
    touched, and neither the cache nor the Verifier is consulted. *)
Theorem initRedis_outcome cfg sc w :
  let w' := snd (initRedis cfg sc w) in
  (forall e, fst (initRedis cfg sc w) <> Threw e)
  /\ (fst (initRedis cfg sc w) = Pending <->
      redisClient w = None /\ createClient_ok sc = true
      /\ connect_reply sc = Pends)
  /\ (fst (initRedis cfg sc w) = Returned None <->
      redisClient w = None
      /\ (createClient_ok sc = false \/ connect_reply sc = Rejects))
  /\ (redisClient w' = None <->
      redisClient w = None /\ createClient_ok sc = false)
  /\ redis_store w' = redis_store w
  /\ fetch_calls (trace w') = fetch_calls (trace w)
  /\ cache_reads (trace w') = cache_reads (trace w)
  /\ cache_writes (trace w') = cache_writes (trace w).
Proof.
  destruct w as [c st tr]. cbn zeta. rewrite initRedis_run.
  cbn [redisClient redis_store].
  destruct c as [cl0|].
  - cbn [fst snd trace redisClient redis_store].
    split; [discriminate|].
    split; [split; [discriminate | intros [? _]; discriminate]|].
    split; [split; [discriminate | intros [? _]; discriminate]|].
    split; [split; [discriminate | intros [? _]; discriminate]|]. auto.
  - cbn [fst snd trace redisClient redis_store].
    rewrite fetch_calls_app, cache_reads_app, cache_writes_app.
    destruct (init_events_quiet cfg sc None) as (-> & -> & ->).
    destruct (createClient_ok sc); [destruct (connect_reply sc)|].
    + split; [discriminate|].
      split; [split; [discriminate | intros (_ & _ & ?); discriminate]|].
      split; [split; [discriminate | intros [_ [?|?]]; discriminate]|].
      split; [split; [discriminate | intros [_ ?]; discriminate]|]. auto.
    + split; [discriminate|].
      split; [split; [discriminate | intros (_ & _ & ?); discriminate]|].
      split; [split; auto|].
      split; [split; [discriminate | intros [_ ?]; discriminate]|]. auto.
    + split; [discriminate|].
      split; [split; auto|].
      split; [split; [discriminate | intros [_ [?|?]]; discriminate]|].
      split; [split; [discriminate | intros [_ ?]; discriminate]|]. auto.
    + split; [discriminate|].
      split; [split; [discriminate | intros (_ & ? & _); discriminate]|].
      split; [split; auto|].
      split; [split; auto|]. auto.
Qed.

(** X2: [validateTurnstileToken] never throws and never touches the
    cache: client, keyspace, cache reads and cache writes are as before.
    It calls the Verifier exactly once when the secret is set, and not at
    all, answering [false], when the secret is undefined or empty. *)
Theorem validateTurnstileToken_effects cfg sc token remoteip w :
  let w' := snd (validateTurnstileToken cfg sc token remoteip w) in
  (exists verdict,
     fst (validateTurnstileToken cfg sc token remoteip w) = Returned verdict
     /\ (truthy (TURNSTILE_SECRET_KEY cfg) = false -> verdict = false))
  /\ fetch_calls (trace w') =
     (match TURNSTILE_SECRET_KEY cfg with
      | Some secret =>
          if String.eqb secret "" then []
          else [siteverify_request secret token remoteip]
      | None => []
      end ++ fetch_calls (trace w))%list
  /\ redisClient w' = redisClient w
  /\ redis_store w' = redis_store w
  /\ cache_reads (trace w') = cache_reads (trace w)
  /\ cache_writes (trace w') = cache_writes (trace w).
Proof.
  destruct w as [c st tr]. cbn zeta.
  destruct (truthy (TURNSTILE_SECRET_KEY cfg)) eqn:Hs.
  - destruct (truthy_inv _ Hs) as (secret & Hsec & Hsne).
    rewrite (validateTurnstileToken_run cfg sc secret) by assumption.
    rewrite Hsec. apply String.eqb_neq in Hsne. rewrite Hsne.
    cbn [fst snd trace redisClient redis_store].
    split; [eexists; split; [reflexivity | discriminate]|].
    unfold verify_events. destruct (reading_throws _); cbn; auto.
  - unfold validateTurnstileToken. rewrite Hs. cbn.
    split; [eexists; split; [reflexivity | reflexivity]|].
    destruct (TURNSTILE_SECRET_KEY cfg) as [secret|]; [|cbn; auto].
    cbn in Hs. apply negb_false_iff in Hs. rewrite Hs. cbn. auto.
Qed.

(** X3: [isTokenValid] never throws and only reads: client and keyspace
    are as before and nothing is written or verified.  It reads the one
    key ["turnstile:" ++ token] when a client is set and nothing
    otherwise; it is left pending exactly when a client is set and [get]
    stays pending; and it answers [true] exactly when a client is set,
    [get] resolves and the key holds an unexpired ["valid"].  In every
    other case it answers [false]. *)
Theorem isTokenValid_effects sc token w :
  let w' := snd (isTokenValid sc token w) in
  (forall e, fst (isTokenValid sc token w) <> Threw e)
  /\ (fst (isTokenValid sc token w) = Pending <->
      redisClient w <> None /\ get_reply sc = Pends)
  /\ (fst (isTokenValid sc token w) = Returned true <->
      redisClient w <> None /\ get_reply sc = Resolves
      /\ redis_lookup (redis_store w) ("turnstile:" ++ token) (get_time sc)
         = Some "valid")
  /\ (fst (isTokenValid sc token w) = Returned true
      \/ fst (isTokenValid sc token w) = Returned false
      \/ fst (isTokenValid sc token w) = Pending)
  /\ cache_reads (trace w') =
     (match redisClient w with
      | Some _ => [("turnstile:" ++ token)%string]
      | None => []
      end ++ cache_reads (trace w))%list
  /\ redisClient w' = redisClient w
  /\ redis_store w' = redis_store w
  /\ fetch_calls (trace w') = fetch_calls (trace w)
  /\ cache_writes (trace w') = cache_writes (trace w).
Proof.
  destruct w as [c st tr]. cbn zeta. rewrite isTokenValid_run.
  cbn [fst snd trace redisClient redis_store]. fold (cache_key token).
  assert (Hframe :
    cache_reads (read_events sc c token ++ tr) =
      (match c with Some _ => [cache_key token] | None => [] end
       ++ cache_reads tr)%list
    /\ c = c /\ st = st
    /\ fetch_calls (read_events sc c token ++ tr) = fetch_calls tr
    /\ cache_writes (read_events sc c token ++ tr) = cache_writes tr).
  { rewrite cache_reads_app, fetch_calls_app, cache_writes_app.
    destruct (read_events_quiet sc c token) as [-> ->].
    unfold read_events. destruct c; [destruct (get_reply sc)|]; cbn; auto. }
  destruct c as [cl|]; [destruct (get_reply sc)|].
  - split; [discriminate|].
    split; [split; [discriminate | intros [_ ?]; discriminate]|].
    split.
    { split.
      - intros [= H]. apply bool_decide_eq_true in H.
        split; [discriminate|]. auto.
      - intros (_ & _ & H). by rewrite bool_decide_eq_true_2. }
    split; [|exact Hframe]. destruct (bool_decide _); auto.
  - split; [discriminate|].
    split; [split; [discriminate | intros [_ ?]; discriminate]|].
    split; [split; [discriminate | intros (_ & ? & _); discriminate]|].
    auto.
  - split; [discriminate|].
    split; [split; [split; [discriminate | reflexivity] | reflexivity]|].
    split; [split; [discriminate | intros (_ & ? & _); discriminate]|].
    auto.
  - split; [discriminate|].
    split; [split; [discriminate | intros [H _]; by destruct H]|].
    split; [split; [discriminate | intros (H & _); by destruct H]|].
    auto.
Qed.


(** X5: a token stored by [storeValidToken] (client set, [setEx]
    resolved) is reported valid by [isTokenValid], when its [get]
    resolves, exactly as long as the read comes no later than 600 seconds
    after the write: the server still serves the key at its expiry
    instant and drops it after. *)
Theorem stored_token_valid_until_expiry sc sc2 token w :
  redisClient w <> None -> setEx_reply sc = Resolves ->
  get_reply sc2 = Resolves ->
  fst (isTokenValid sc2 token (snd (storeValidToken sc token w))) =
  Returned (Z.leb (get_time sc2) (setEx_time sc + 600 * 1000)).
Proof.
  intros Hc Hset Hget. destruct w as [c st tr]. cbn [redisClient] in Hc.
  rewrite storeValidToken_run. destruct c as [cl|]; [|by destruct Hc].
  cbn [snd]. rewrite isTokenValid_run, Hget. cbn [fst].
  unfold stored. rewrite Hset. cbn [resolves].
  rewrite redis_lookup_fresh.
  destruct (Z.leb _ _); [by rewrite bool_decide_eq_true_2|].
  by rewrite bool_decide_eq_false_2.
Qed.

(** X6: storing one token does not change what [isTokenValid] answers
    for any other token. *)
Theorem stored_token_leaves_others sc sc2 token other w :
  other <> token ->
  fst (isTokenValid sc2 other (snd (storeValidToken sc token w))) =
  fst (isTokenValid sc2 other w).
Proof.
  intros Hne. destruct w as [c st tr].
  rewrite storeValidToken_run. cbn [snd]. rewrite !isTokenValid_run.
  cbn [fst]. destruct c as [cl|]; [|reflexivity].
  destruct (get_reply sc2); try reflexivity.
  unfold stored. destruct (resolves (setEx_reply sc)); [|reflexivity].
  rewrite redis_lookup_other; [reflexivity|].
  intros Heq. apply Hne. symmetry. by apply cache_key_inj.
Qed.

(** ** The gate as a whole *)

(** X7: a variable that is set to the empty string counts as absent:
    with an empty secret or an empty cache URL every request is let
    through and nothing at all is done. *)
Theorem empty_configuration_disables cfg sc event w :
  TURNSTILE_SECRET_KEY cfg = Some "" \/ REDIS_URL cfg = Some "" ->
  handler cfg sc event w = (Returned tt, w).
Proof.
  intros [H|H]; apply handler_disabled; rewrite H; auto.
Qed.

(** X8: the gate lets nothing through unchecked.  With the gate
    configured, a request that is let through carried a non-empty token,
    and either the cache answered with an unexpired ["valid"] for it or
    the Verifier's answer for it was read as a success. *)
Theorem allowed_means_verified cfg sc event w :
  configured cfg ->
  fst (handler cfg sc event w) = Returned tt ->
  exists secret token,
    TURNSTILE_SECRET_KEY cfg = Some secret
    /\ getHeader event "x-turnstile-token" = Some token /\ token <> ""
    /\ (get_reply sc = Resolves
        /\ redis_lookup (redis_store w) ("turnstile:" ++ token) (get_time sc)
           = Some "valid"
        \/ reports_success
             (siteverify sc
                (siteverify_request secret token (resolve_remoteip event)))
           = true).
Proof.
  intros [Hs Hu] Hret. destruct w as [c st tr].
  destruct (truthy_inv _ Hs) as (secret & Hsec & Hsne).
  destruct (truthy (getHeader event "x-turnstile-token")) eqn:Ht.
  - destruct (truthy_inv _ Ht) as (token & Htok & Htne).
    exists secret, token. repeat (split; [assumption|]).
    rewrite (handler_summary cfg sc event c st tr secret token) in Hret
      by assumption.
    destruct (connect_pends sc _); [discriminate|].
    destruct (get_pends cfg sc _); [discriminate|].
    destruct (cache_hit cfg sc _ token) eqn:Hhit.
    + left. unfold cache_hit in Hhit.
      apply andb_true_iff in Hhit as [Hhit Hval].
      apply andb_true_iff in Hhit as [_ Hget].
      apply bool_decide_eq_true in Hval. split; [|exact Hval].
      by destruct (get_reply sc).
    + right. destruct (reports_success _); [reflexivity | discriminate].
  - rewrite handler_missing in Hret by (try split; assumption).
    cbn [fst] in Hret. destruct (connect_pends sc _); discriminate.
Qed.

(** X9: a request that is rejected, for whichever reason, leaves the
    keyspace as it was and attempts no cache write. *)
Theorem rejection_writes_nothing cfg sc event w e :
  fst (handler cfg sc event w) = Threw e ->
  redis_store (snd (handler cfg sc event w)) = redis_store w
  /\ cache_writes (trace (snd (handler cfg sc event w))) = cache_writes (trace w).
Proof.
  handler_courses cfg sc event w; intros Hthrew; try discriminate.
  - split; [reflexivity|]. rewrite cache_writes_app.
    destruct (init_events_quiet cfg sc c) as (_ & _ & ->). reflexivity.
  - exfalso. destruct (setEx_pends cfg sc _); discriminate.
  - split; [reflexivity|]. rewrite !cache_writes_app.
    destruct (verify_events_calls sc
                (siteverify_request secret token (resolve_remoteip event)))
      as [_ ->].
    destruct (read_events_quiet sc
                (client_after_init cfg sc
                   {| redisClient := c; redis_store := st; trace := tr |}) token)
      as [_ ->].
    destruct (init_events_quiet cfg sc c) as (_ & _ & ->). reflexivity.
Qed.

(** X10: a request changes no key but its own.  Whatever the request
    does, a key other than ["turnstile:" ++ token] for the token in its
    header keeps its entry, and no key that held an entry loses it. *)
Theorem only_own_key_changes cfg sc event w :
  let w' := snd (handler cfg sc event w) in
  (forall key : string,
     (forall token, getHeader event "x-turnstile-token" = Some token ->
                    key <> "turnstile:" ++ token) ->
     redis_store w' !! key = redis_store w !! key)
  /\ (forall key : string,
        is_Some (redis_store w !! key) -> is_Some (redis_store w' !! key)).
Proof.
  cbn zeta. handler_courses cfg sc event w; try (split; auto; fail).
  unfold stored.
  destruct (client_after_init cfg sc _) as [cl|]; [|split; auto].
  destruct (resolves (setEx_reply sc)); [|split; auto].
  unfold redis_write. split.
  - intros key Hkey. rewrite lookup_insert_ne; [reflexivity|].
    intros Heq. by apply (Hkey token Hh).
  - intros key Hsome.
    destruct (decide (cache_key token = key)) as [<-|Hdiff].
    + rewrite lookup_insert_eq. eauto.
    + by rewrite lookup_insert_ne.
Qed.

(** X11: after a token was verified and stored, a request with the same
    token that reads the cache more than 600 seconds after the write
    finds the entry expired and calls the Verifier again. *)
Theorem expired_entry_reverified cfg sc sc2 event w secret token :
  TURNSTILE_SECRET_KEY cfg = Some secret -> secret <> "" ->
  truthy (REDIS_URL cfg) = true ->
  getHeader event "x-turnstile-token" = Some token -> token <> "" ->
  connect_pends sc w = false -> get_pends cfg sc w = false ->
  client_after_init cfg sc w <> None -> setEx_reply sc = Resolves ->
  redis_lookup (redis_store w) (cache_key token) (get_time sc) <> Some "valid" ->
  reports_success
    (siteverify sc (siteverify_request secret token (resolve_remoteip event)))
  = true ->
  get_reply sc2 <> Pends ->
  setEx_time sc + 600 * 1000 < get_time sc2 ->
  let w1 := snd (handler cfg sc event w) in
  fetch_calls (trace (snd (handler cfg sc2 event w1))) =
  siteverify_request secret token (resolve_remoteip event)
  :: fetch_calls (trace w1).
Proof.
  intros Hs Hsne Hu Hh Hne Hconn Hread Hcl Hset Hmiss Hok Hget2 Hlate w1.
  assert (Hw1 : redisClient w1 <> None
                /\ redis_lookup (redis_store w1) (cache_key token) (get_time sc2)
                   <> Some "valid").
  { subst w1. destruct w as [c st tr].
    rewrite (handler_summary cfg sc event c st tr secret token) by assumption.
    rewrite Hconn, Hread.
    rewrite cache_hit_miss by exact Hmiss. rewrite Hok.
    cbn [snd redis_store redisClient]. split; [exact Hcl|]. unfold stored.
    destruct (client_after_init cfg sc _); [|by destruct Hcl].
    rewrite Hset. cbn [resolves]. rewrite redis_lookup_fresh.
    destruct (Z.leb_spec (get_time sc2) (setEx_time sc + 600 * 1000));
      [lia | discriminate]. }
  destruct Hw1 as [Hclient Hgone].
  apply miss_calls_verifier; try assumption.
  - unfold connect_pends. by destruct (redisClient w1).
  - unfold get_pends. destruct (client_after_init cfg sc2 w1); [|reflexivity].
    by destruct (get_reply sc2).
  - by apply cache_hit_miss.
Qed.

(** ** Sequences of requests *)

Lemma handler_counts cfg sc event w :
  let w' := snd (handler cfg sc event w) in
  exists calls writes : nat,
    length (fetch_calls (trace w')) = (length (fetch_calls (trace w)) + calls)%nat
    /\ length (cache_writes (trace w'))
       = (length (cache_writes (trace w)) + writes)%nat
    /\ (writes <= calls)%nat /\ (calls <= 1)%nat.
Proof.
  cbn zeta.
  handler_courses cfg sc event w;
    rewrite ?fetch_calls_app, ?cache_writes_app, ?length_app;
    try (destruct (init_events_quiet cfg sc c) as (-> & _ & ->));
    try (destruct (read_events_quiet sc
                     (client_after_init cfg sc
                        {| redisClient := c; redis_store := st; trace := tr |})
                     token) as [-> ->]);
    try (destruct (verify_events_calls sc
                     (siteverify_request secret token (resolve_remoteip event)))
           as [-> ->]);
    rewrite ?write_events_quiet; cbn [length app].
  - exists 0%nat, 0%nat. lia.
  - exists 0%nat, 0%nat. lia.
  - exists 0%nat, 0%nat. lia.
  - exists 0%nat, 0%nat. lia.
  - exists 0%nat, 0%nat. lia.
  - unfold write_events.
    destruct (client_after_init cfg sc _); [destruct (setEx_reply sc)|]; cbn;
      [exists 1%nat, 1%nat | exists 1%nat, 1%nat | exists 1%nat, 1%nat
       | exists 1%nat, 0%nat]; lia.
  - exists 1%nat, 0%nat. lia.
Qed.

(** X12: over any sequence of requests the Verifier is called at most
    once per request, and the cache is written at most once per Verifier
    call. *)
Theorem verifier_calls_bounded cfg requests w :
  let final := snd (run cfg requests w) in
  (length (fetch_calls (trace final))
   <= length (fetch_calls (trace w)) + length requests)%nat
  /\ (length (cache_writes (trace final)) + length (fetch_calls (trace w))
      <= length (cache_writes (trace w)) + length (fetch_calls (trace final)))%nat.
Proof.
  revert w. induction requests as [|[sc event] rest IH]; intros w.
  - cbn. lia.
  - cbn [run].
    destruct (handler_counts cfg sc event w) as (calls & writes & Hc & Hw & ? & ?).
    destruct (handler cfg sc event w) as [r w1]. cbn [snd] in Hc, Hw.
    specialize (IH w1). destruct (run cfg rest w1) as [rs w2].
    cbn [snd length] in *. lia.
Qed.

Lemma handler_connections cfg sc event w :
  let w' := snd (handler cfg sc event w) in
  (redisClient w <> None ->
   redisClient w' = redisClient w
   /\ createClient_calls (trace w') = createClient_calls (trace w)
   /\ connect_count (trace w') = connect_count (trace w))
  /\ (redisClient w = None ->
      redisClient w' = None /\ connect_count (trace w') = connect_count (trace w)
      \/ redisClient w' <> None
         /\ (connect_count (trace w') <= connect_count (trace w) + 1)%nat).
Proof.
  cbn zeta. unfold connect_count, createClient_calls.
  handler_courses cfg sc event w;
    [split; auto | ..];
    open_phases cfg sc c; split; intros H; try discriminate;
    try (by destruct H); auto; right; (split; [discriminate | lia]).
Qed.

Lemma run_with_client cfg requests w :
  redisClient w <> None ->
  let final := snd (run cfg requests w) in
  redisClient final = redisClient w
  /\ createClient_calls (trace final) = createClient_calls (trace w)
  /\ connect_count (trace final) = connect_count (trace w).
Proof.
  revert w. induction requests as [|[sc event] rest IH]; intros w Hc.
  - cbn. auto.
  - cbn [run].
    destruct (handler_connections cfg sc event w) as [Hset _].
    destruct (Hset Hc) as (Hcl & Hcreate & Hconn).
    destruct (handler cfg sc event w) as [r w1]. cbn [snd] in Hcl, Hcreate, Hconn.
    specialize (IH w1). destruct (run cfg rest w1) as [rs w2]. cbn [snd] in *.
    rewrite <- Hcl, <- Hcreate, <- Hconn. apply IH. by rewrite Hcl.
Qed.

(** X13: the client is a singleton.  Once [redisClient] is set, no
    later request creates a client or connects again, and the variable
    keeps its value, over any sequence of requests. *)
Theorem client_is_reused cfg requests w :
  redisClient w <> None ->
  let final := snd (run cfg requests w) in
  redisClient final = redisClient w
  /\ createClient_calls (trace final) = createClient_calls (trace w)
  /\ connect_count (trace final) = connect_count (trace w).
Proof.
  intros Hc. exact (run_with_client cfg requests w Hc).
Qed.

(** X14: [connect] is attempted at most once in the life of the
    process, whether or not that attempt succeeded: over any sequence of
    requests served from process start the trace holds at most one
    [connect]. *)
Theorem connect_attempted_once cfg requests (st : gmap string (string * Z)) :
  (connect_count (trace (snd (run cfg requests (initial_world st)))) <= 1)%nat.
Proof.
  assert (Hgen : forall w,
             redisClient w = None ->
             (connect_count (trace (snd (run cfg requests w)))
              <= connect_count (trace w) + 1)%nat).
  { induction requests as [|[sc event] rest IH]; intros w Hnone.
    - cbn. lia.
    - cbn [run].
      destruct (handler_connections cfg sc event w) as [_ Hunset].
      pose proof (run_with_client cfg rest (snd (handler cfg sc event w))) as Hkeep.
      destruct (handler cfg sc event w) as [r w1]. cbn [snd] in Hunset, Hkeep.
      specialize (IH w1). destruct (run cfg rest w1) as [rs w2]. cbn [snd] in *.
      destruct (Hunset Hnone) as [[Hstill Hsame] | [Hnow Hone]].
      + specialize (IH Hstill). lia.
      + destruct (Hkeep Hnow) as (_ & _ & Heq). lia. }
  specialize (Hgen (initial_world st) eq_refl). cbn in Hgen. exact Hgen.
Qed.

Lemma handler_other_tokens cfg sc event w token other now :
  getHeader event "x-turnstile-token" = Some token ->
  other <> token ->
  redis_lookup (redis_store (snd (handler cfg sc event w))) (cache_key other) now
  = redis_lookup (redis_store w) (cache_key other) now.
Proof.
  intros Hh Hne. handler_courses cfg sc event w; try reflexivity.
  assert (token0 = token) as -> by congruence.
  unfold stored.
  destruct (client_after_init cfg sc _); [destruct (resolves (setEx_reply sc))|];
    try reflexivity.
  apply redis_lookup_other. intros Heq. apply Hne. symmetry.
  by apply cache_key_inj.
Qed.

(** X15: serving a request for one token never makes another token
    valid: for every other token the cache answers after the request what
    it answered before, at every instant. *)
Theorem verified_token_admits_no_other cfg sc event w token other now :
  getHeader event "x-turnstile-token" = Some token ->
  other <> token ->
  redis_lookup (redis_store (snd (handler cfg sc event w)))
    ("turnstile:" ++ other) now
  = redis_lookup (redis_store w) ("turnstile:" ++ other) now.
Proof.
  intros Hh Hne. exact (handler_other_tokens cfg sc event w token other now Hh Hne).
Qed.

(** X16: the client is set up before the token is looked at.  With the
    gate configured and no client set, every request, with or without a
    token, calls [createClient] once with the configured URL, and calls
    [connect] exactly when [createClient] did not throw. *)
Theorem client_created_before_token_check cfg sc event w :
  configured cfg ->
  redisClient w = None ->
  let w' := snd (handler cfg sc event w) in
  createClient_calls (trace w') = REDIS_URL cfg :: createClient_calls (trace w)
  /\ connect_count (trace w') =
     (connect_count (trace w) + if createClient_ok sc then 1 else 0)%nat.
Proof.
  intros [Hs Hu] Hnone. cbn zeta. destruct w as [c st tr].
  cbn [redisClient] in Hnone. subst c.
  destruct (truthy_inv _ Hs) as (secret & Hsec & Hsne).
  unfold connect_count, createClient_calls.
  destruct (truthy (getHeader event "x-turnstile-token")) eqn:Ht.
  - destruct (truthy_inv _ Ht) as (token & Htok & Htne).
    rewrite (handler_summary cfg sc event None st tr secret token) by assumption.
    destruct (connect_pends sc _);
      [|destruct (get_pends cfg sc _);
        [|destruct (cache_hit cfg sc _ token);
          [|destruct (reports_success _)]]]; cbn [snd trace];
      (unfold init_events, read_events, write_events, verify_events,
         client_after_init;
       cbn [redisClient];
       destruct (createClient_ok sc); destruct (connect_reply sc);
       destruct (get_reply sc); destruct (setEx_reply sc);
       try match goal with
           | |- context [reading_throws ?a] => destruct (reading_throws a)
           end;
       cbn; split; (reflexivity || lia)).
  - rewrite handler_missing by (try split; assumption). cbn [snd trace].
    unfold init_events.
    destruct (createClient_ok sc); destruct (connect_reply sc); cbn;
      split; (reflexivity || lia).
Qed.

Lemma handler_addresses cfg sc event w :
  let w' := snd (handler cfg sc event w) in
  fetch_calls (trace w') = fetch_calls (trace w)
  \/ exists secret req,
       TURNSTILE_SECRET_KEY cfg = Some secret
       /\ well_addressed secret req
       /\ fetch_calls (trace w') = req :: fetch_calls (trace w).
Proof.
  cbn zeta.
  handler_courses cfg sc event w;
    rewrite ?fetch_calls_app, ?write_events_quiet;
    try (destruct (init_events_quiet cfg sc c) as (-> & _));
    try (destruct (read_events_quiet sc
                     (client_after_init cfg sc
                        {| redisClient := c; redis_store := st; trace := tr |})
                     token) as [-> _]);
    try (destruct (verify_events_calls sc
                     (siteverify_request secret token (resolve_remoteip event)))
           as [-> _]);
    cbn [app]; try (by left).
  - right. eexists secret, _. split; [exact Hs|]. split; [|reflexivity].
    repeat split. eexists token, _. split; [reflexivity | exact Hne].
  - right. eexists secret, _. split; [exact Hs|]. split; [|reflexivity].
    repeat split. eexists token, _. split; [reflexivity | exact Hne].
Qed.

(** X17: every call the gate ever makes to the outside over HTTP is a
    form-encoded POST to the siteverify endpoint whose first two fields
    are the configured secret and a non-empty token: over any sequence of
    requests from process start, each Verifier call in the trace has that
    shape. *)
Theorem calls_go_to_siteverify cfg requests (st : gmap string (string * Z)) :
  Forall (fun req =>
            exists secret,
              TURNSTILE_SECRET_KEY cfg = Some secret
              /\ well_addressed secret req)
         (fetch_calls (trace (snd (run cfg requests (initial_world st))))).
Proof.
  assert (Hgen : forall w,
    Forall (fun req => exists secret,
              TURNSTILE_SECRET_KEY cfg = Some secret /\ well_addressed secret req)
           (fetch_calls (trace w)) ->
    Forall (fun req => exists secret,
              TURNSTILE_SECRET_KEY cfg = Some secret /\ well_addressed secret req)
           (fetch_calls (trace (snd (run cfg requests w))))).
  { induction requests as [|[sc event] rest IH]; intros w Hw; [exact Hw|].
    cbn [run].
    pose proof (handler_addresses cfg sc event w) as Hstep.
    destruct (handler cfg sc event w) as [r w1]. cbn [snd] in Hstep.
    specialize (IH w1). destruct (run cfg rest w1) as [rs w2]. cbn [snd] in *.
    apply IH.
    destruct Hstep as [-> | (secret & req & Hs & Hreq & ->)]; [exact Hw|].
    constructor; [|exact Hw]. exists secret. auto. }
  apply Hgen. constructor.
Qed.

(** ** The further properties on the sample requests *)

Lemma validateTurnstileToken_effects_witness :
  redis_store
    (snd (validateTurnstileToken cfg_blank (scenario true 0 answer_ok) "tok" None
            world_cached))
  = redis_store world_cached.
Proof.
  apply (validateTurnstileToken_effects cfg_blank (scenario true 0 answer_ok)
           "tok" None world_cached).
Defined.


Lemma stored_token_valid_until_expiry_witness :
  fst (isTokenValid (scenario true 601000 answer_no) "new"
         (snd (storeValidToken (scenario true 1000 answer_ok) "new" world_cached)))
  = Returned true
  /\ fst (isTokenValid (scenario true 601001 answer_no) "new"
            (snd (storeValidToken (scenario true 1000 answer_ok) "new"
                    world_cached)))
     = Returned false.
Proof.
  split.
  - apply (stored_token_valid_until_expiry (scenario true 1000 answer_ok)
             (scenario true 601000 answer_no) "new" world_cached).
    + discriminate.
    + reflexivity.
    + reflexivity.
  - apply (stored_token_valid_until_expiry (scenario true 1000 answer_ok)
             (scenario true 601001 answer_no) "new" world_cached).
    + discriminate.
    + reflexivity.
    + reflexivity.
Defined.

Lemma stored_token_leaves_others_witness :
  fst (isTokenValid (scenario true 2000 answer_no) "tok"
         (snd (storeValidToken (scenario true 1000 answer_ok) "new" world_cached)))
  = fst (isTokenValid (scenario true 2000 answer_no) "tok" world_cached).
Proof.
  apply (stored_token_leaves_others (scenario true 1000 answer_ok)
           (scenario true 2000 answer_no) "new" "tok" world_cached).
  discriminate.
Defined.

Lemma empty_configuration_disables_witness :
  handler cfg_blank (scenario true 0 answer_no) ev_bare world_cached
  = (Returned tt, world_cached).
Proof.
  apply (empty_configuration_disables cfg_blank (scenario true 0 answer_no)
           ev_bare world_cached).
  left. reflexivity.
Defined.

Lemma allowed_means_verified_witness :
  exists secret token,
    TURNSTILE_SECRET_KEY cfg_on = Some secret
    /\ getHeader ev_token "x-turnstile-token" = Some token /\ token <> ""
    /\ (get_reply (scenario true 1000 answer_no) = Resolves
        /\ redis_lookup (redis_store world_cached) ("turnstile:" ++ token)
             (get_time (scenario true 1000 answer_no)) = Some "valid"
        \/ reports_success
             (siteverify (scenario true 1000 answer_no)
                (siteverify_request secret token (resolve_remoteip ev_token)))
           = true).
Proof.
  apply (allowed_means_verified cfg_on (scenario true 1000 answer_no) ev_token
           world_cached).
  - split; reflexivity.
  - vm_compute. reflexivity.
Defined.

Lemma rejection_writes_nothing_witness :
  redis_store (snd (handler cfg_on (scenario true 1000 answer_no) ev_token
                      (initial_world ∅)))
  = redis_store (initial_world ∅).
Proof.
  apply (rejection_writes_nothing cfg_on (scenario true 1000 answer_no) ev_token
           (initial_world ∅) invalid_token_error).
  vm_compute. reflexivity.
Defined.

Lemma only_own_key_changes_witness :
  redis_store (snd (handler cfg_on (scenario true 700000 answer_ok) ev_token
                      world_cached)) !! "turnstile:other"
  = redis_store world_cached !! "turnstile:other".
Proof.
  apply (only_own_key_changes cfg_on (scenario true 700000 answer_ok) ev_token
           world_cached).
  intros token Htok. vm_compute in Htok. injection Htok as <-. discriminate.
Defined.

Lemma expired_entry_reverified_witness :
  length
    (fetch_calls
       (trace (snd (handler cfg_on (scenario true 601001 answer_ok) ev_token
                      (snd (handler cfg_on (scenario true 1000 answer_ok) ev_token
                              (initial_world ∅)))))))
  = 2%nat.
Proof.
  rewrite (expired_entry_reverified cfg_on (scenario true 1000 answer_ok)
             (scenario true 601001 answer_ok) ev_token (initial_world ∅)
             "s3cr3t" "tok").
  - vm_compute. reflexivity.
  - reflexivity.
  - discriminate.
  - reflexivity.
  - reflexivity.
  - discriminate.
  - reflexivity.
  - reflexivity.
  - vm_compute. discriminate.
  - reflexivity.
  - vm_compute. discriminate.
  - reflexivity.
  - discriminate.
  - vm_compute. reflexivity.
Defined.

Lemma client_is_reused_witness :
  connect_count
    (trace (snd (run cfg_on
                   [(scenario true 1000 answer_ok, ev_token);
                    (scenario false 2000 answer_no, ev_bare)]
                   world_cached)))
  = connect_count (trace world_cached).
Proof.
  apply (client_is_reused cfg_on
           [(scenario true 1000 answer_ok, ev_token);
            (scenario false 2000 answer_no, ev_bare)]
           world_cached).
  discriminate.
Defined.

Lemma verified_token_admits_no_other_witness :
  redis_lookup
    (redis_store (snd (handler cfg_on (scenario true 1000 answer_ok) ev_token
                         (initial_world ∅))))
    ("turnstile:" ++ "other") 1500
  = redis_lookup (redis_store (initial_world ∅)) ("turnstile:" ++ "other") 1500.
Proof.
  apply (verified_token_admits_no_other cfg_on (scenario true 1000 answer_ok)
           ev_token (initial_world ∅) "tok" "other" 1500).
  - reflexivity.
  - discriminate.
Defined.

Lemma client_created_before_token_check_witness :
  createClient_calls
    (trace (snd (handler cfg_on (scenario_hung 0 answer_no) ev_bare
                   (initial_world ∅))))
  = REDIS_URL cfg_on :: createClient_calls (trace (initial_world ∅)).
Proof.
  apply (client_created_before_token_check cfg_on (scenario_hung 0 answer_no)
           ev_bare (initial_world ∅)).
  - split; reflexivity.
  - reflexivity.
Defined.
